(** * feops: the multi-repository branch inspection commands

    A shallow embedding of [src/commands/merged.ts] and
    [src/commands/uptodate.ts] (the [merged] and [uptodate] commands and
    their [processProject] jobs) and of [utils/progressBar.ts], followed
    by the properties of the inspection engine.

    The commands talk to the outside world only through
    [child_process.execSync], which either returns the standard output of
    the command it ran or throws.  Each [git] command line the two files
    build is a constructor of [command]; the repository the command runs
    in is an abstract state with an interface [Git].  The body of
    [processProject] is written in a small state-and-exception monad: the
    state holds the [result] record being filled in, the two [let]
    variables, the repository and the list of commands run so far, and a
    [throw] keeps the state, as in JavaScript. *)

From Stdlib Require Import ZArith Lia Bool Ascii String DecimalString.
From stdpp Require Import base option list strings functions gmap sorting.

Open Scope string_scope.

(** ** JavaScript strings and numbers *)

Module JS.

(** White space removed by [String.prototype.trim] and skipped by
    [parseInt].  Strings are byte strings here, so of the characters
    ECMAScript lists only the ASCII ones are recognised. *)
Definition is_white (c : ascii) : bool :=
  let n := nat_of_ascii c in
  (n =? 9)%nat || (n =? 10)%nat || (n =? 11)%nat || (n =? 12)%nat
  || (n =? 13)%nat || (n =? 32)%nat.

Fixpoint trimStart (s : string) : string :=
  match s with
  | String c s' => if is_white c then trimStart s' else s
  | EmptyString => EmptyString
  end.

Fixpoint trimEnd (s : string) : string :=
  match s with
  | EmptyString => EmptyString
  | String c s' =>
      match trimEnd s' with
      | EmptyString => if is_white c then EmptyString else String c EmptyString
      | t => String c t
      end
  end.

Definition trim (s : string) : string := trimEnd (trimStart s).

(** A JavaScript number that holds an integer, or [NaN] ([None]).  The
    rounding of integers beyond 2^53 is not modelled. *)
Definition num : Type := option Z.

Definition NaN : num := None.

(** The value of a digit in radix [r], if it is one. *)
Definition digit (r : Z) (c : ascii) : option Z :=
  let n := Z.of_nat (nat_of_ascii c) in
  let v :=
    if (48 <=? n)%Z && (n <=? 57)%Z then Some (n - 48)%Z
    else if (97 <=? n)%Z && (n <=? 122)%Z then Some (n - 87)%Z
    else if (65 <=? n)%Z && (n <=? 90)%Z then Some (n - 55)%Z
    else None in
  match v with
  | Some d => if (d <? r)%Z then Some d else None
  | None => None
  end.

(** The longest prefix of radix-[r] digits, read as a number; [acc] is
    the value read so far and [seen] tells whether a digit was read. *)
Fixpoint digits (r : Z) (s : string) (acc : Z) (seen : bool) : num :=
  match s with
  | String c s' =>
      match digit r c with
      | Some d => digits r s' (acc * r + d)%Z true
      | None => if seen then Some acc else NaN
      end
  | EmptyString => if seen then Some acc else NaN
  end.

(** [parseInt(s)] with no radix argument: leading white space, an
    optional sign, an optional [0x] prefix, then digits. *)
Definition parseInt (s : string) : num :=
  let s1 := trimStart s in
  let '(sign, s2) :=
    match s1 with
    | String "-" t => (-1, t)
    | String "+" t => (1, t)
    | _ => (1, s1)
    end%Z in
  let '(r, s3) :=
    match s2 with
    | String "0" (String "x" t) => (16, t)
    | String "0" (String "X" t) => (16, t)
    | _ => (10, s2)
    end%Z in
  match digits r s3 0%Z false with
  | Some z => Some (sign * z)%Z
  | None => NaN
  end.

(** The text does not open, after white space, with a minus sign. *)
Definition unsigned (s : string) : bool :=
  match trimStart s with
  | String "-" _ => false
  | _ => true
  end.

(** [x || 0] on a number: [NaN] and zero are falsy. *)
Definition or_zero (x : num) : Z :=
  match x with
  | Some z => z
  | None => 0%Z
  end.

(** [x < y], [x + y] and [Math.min(x, y)]: anything with [NaN] is false,
    respectively [NaN]. *)
Definition lt (x y : num) : bool :=
  match x, y with
  | Some a, Some b => (a <? b)%Z
  | _, _ => false
  end.

Definition add (x y : num) : num :=
  match x, y with
  | Some a, Some b => Some (a + b)%Z
  | _, _ => NaN
  end.

Definition min (x y : num) : num :=
  match x, y with
  | Some a, Some b => Some (Z.min a b)
  | _, _ => NaN
  end.

(** [ToIntegerOrInfinity] on the numbers above: [NaN] becomes 0. *)
Definition toInteger (x : num) : Z := or_zero x.

(** [Array.prototype.slice(start, end)]: negative indices count from the
    end of the array and everything is clamped to its bounds. *)
Definition slice {A : Type} (l : list A) (start stop : num) : list A :=
  let len := Z.of_nat (length l) in
  let clamp (i : Z) := if (i <? 0)%Z then Z.max (len + i) 0 else Z.min i len in
  let k := clamp (toInteger start) in
  let final := clamp (toInteger stop) in
  take (Z.to_nat (final - k)) (drop (Z.to_nat k) l).

(** [s.split(' ')[0]]: the part of [s] before the first space. *)
Fixpoint before_space (s : string) : string :=
  match s with
  | String c s' => if Ascii.eqb c " " then EmptyString else String c (before_space s')
  | EmptyString => EmptyString
  end.

(** Truthiness of a string: only the empty string is falsy. *)
Definition truthy (s : string) : bool :=
  match s with
  | EmptyString => false
  | _ => true
  end.

End JS.

(** ** [execSync] and the commands it is given *)

(** The double quote of the [--format] and [--grep] arguments. *)
Definition dquote : string := String (ascii_of_nat 34) EmptyString.

(** The command lines of the two files, by the template that builds
    them. *)
Inductive command : Type :=
  | GitFetch
  | GitRevParseVerify (ref : string)
  | GitRevParse (ref : string)
  | GitLogDate (commit : string)
  | GitIsAncestor (candidate descendant : string)
  | GitRevListCount (since until : string)
  | GitLogMerges (branchName baseBranch : string).

Definition command_line (c : command) : string :=
  match c with
  | GitFetch => "git fetch --all --prune"
  | GitRevParseVerify ref => "git rev-parse --verify " +:+ ref
  | GitRevParse ref => "git rev-parse " +:+ ref
  | GitLogDate commit =>
      "git log -1 --format=" +:+ dquote +:+ "%ci" +:+ dquote +:+ " " +:+ commit
  | GitIsAncestor a b => "git merge-base --is-ancestor " +:+ a +:+ " " +:+ b
  | GitRevListCount a b => "git rev-list --count " +:+ a +:+ ".." +:+ b
  | GitLogMerges branchName baseBranch =>
      "git log --oneline --merges --grep=" +:+ dquote +:+ "Merge.*" +:+ branchName
      +:+ dquote +:+ " " +:+ baseBranch +:+ " | head -1"
  end.

#[global] Instance command_eq_dec : EqDecision command.
Proof. solve_decision. Defined.

(** An exception, as the text [`${error}`] renders it. *)
Definition exn : Type := string.

(** What a call of [execSync] does: return the standard output, or throw
    (a non-zero exit status, a time-out, a spawn failure). *)
Inductive outcome : Type :=
  | Ok (stdout : string)
  | Throw (error : exn).

Definition succeeded (o : outcome) : bool :=
  match o with
  | Ok _ => true
  | Throw _ => false
  end.

(** A repository as [git] sees it.  Only [git fetch] writes to it (the
    remote-tracking references); the other commands read. *)
Class Git (repo : Type) : Type := {
  git_fetch : repo -> outcome * repo;
  git_read : command -> repo -> outcome
}.

Definition run_git `{Git repo} (c : command) (r : repo) : outcome * repo :=
  match c with
  | GitFetch => git_fetch r
  | _ => (git_read c r, r)
  end.

(** The options [commander] hands to the action; [--no-fetch] clears
    [fetch], [parallel] is the text after [-p]. *)
Record Options : Type := {
  fetch : bool;
  parallel : string
}.

Definition path_join (dir item : string) : string := dir +:+ "/" +:+ item.

(** ** The monad of a job *)

(** The state of one call of [processProject] with result type [R]. *)
Record frame (R repo : Type) : Type := Frame {
  result : R;
  actualBranchRef : string;
  actualMasterRef : string;
  cwd : repo;
  executed : list command
}.
Arguments Frame {R repo}.
Arguments result {R repo}.
Arguments actualBranchRef {R repo}.
Arguments actualMasterRef {R repo}.
Arguments cwd {R repo}.
Arguments executed {R repo}.

Definition M (S A : Type) : Type := S -> (exn + A) * S.

Definition ret {S A : Type} (a : A) : M S A := fun s => (inr a, s).

Definition bind {S A B : Type} (m : M S A) (k : A -> M S B) : M S B :=
  fun s =>
    match m s with
    | (inr a, s') => k a s'
    | (inl e, s') => (inl e, s')
    end.

Definition throw {S A : Type} (e : exn) : M S A := fun s => (inl e, s).

Definition try_catch {S A : Type} (body : M S A) (handler : exn -> M S A) : M S A :=
  fun s =>
    match body s with
    | (inr a, s') => (inr a, s')
    | (inl e, s') => handler e s'
    end.

Definition modify {S : Type} (f : S -> S) : M S unit := fun s => (inr tt, f s).

Definition gets {S A : Type} (f : S -> A) : M S A := fun s => (inr (f s), s).

Declare Scope job_scope.
Delimit Scope job_scope with job.
Notation "x <- m ;; k" := (bind m (fun x => k))
  (at level 100, m at next level, right associativity) : job_scope.
Notation "m ;; k" := (bind m (fun _ => k))
  (at level 100, right associativity) : job_scope.
Notation "'try_' body 'catch_' e 'in' handler" := (try_catch body (fun e => handler))
  (at level 100, e name, body at level 200, handler at level 200) : job_scope.

(** [if (b) { m }] with no [else]. *)
Definition when {S : Type} (b : bool) (m : M S unit) : M S unit :=
  if b then m else ret tt.

Section Exec.
Context {R repo : Type} `{Git repo}.

Definition execSync (c : command) : M (frame R repo) string :=
  fun s =>
    let '(o, r') := run_git c (cwd s) in
    let s' := Frame (result s) (actualBranchRef s) (actualMasterRef s) r'
                    (executed s ++ [c]) in
    match o with
    | Ok stdout => (inr stdout, s')
    | Throw error => (inl error, s')
    end.

Definition set_result (f : R -> R) : M (frame R repo) unit :=
  modify (fun s => Frame (f (result s)) (actualBranchRef s) (actualMasterRef s)
                         (cwd s) (executed s)).

Definition set_actualBranchRef (v : string) : M (frame R repo) unit :=
  modify (fun s => Frame (result s) v (actualMasterRef s) (cwd s) (executed s)).

Definition set_actualMasterRef (v : string) : M (frame R repo) unit :=
  modify (fun s => Frame (result s) (actualBranchRef s) v (cwd s) (executed s)).
End Exec.

(** ** [utils/progressBar.ts] *)

Module ProgressBar.

Record ProgressBar : Type := {
  current : JS.num;
  total : Z
}.

Definition createProgressBar (total : Z) : ProgressBar :=
  {| current := Some 0%Z; total := total |}.

(** [update] stores [Math.min(current, total)] and renders the bar, which
    shows the pair [(current/total)].  The rendering itself is not
    modelled: it writes to the terminal, and it throws a [RangeError] when
    the rounded share of the bar is negative, which needs a negative
    [current].  The properties of the loop are stated for the wave sizes
    that keep [current] between 0 and the total, or make it [NaN]. *)
Definition update (bar : ProgressBar) (current : JS.num) : ProgressBar :=
  {| current := JS.min current (Some (total bar)); total := total bar |}.

End ProgressBar.

(** ** The wave loop of the two commands

    The [for] loop of [mergedCommand] and of [uptodateCommand], which
    differ only in the job they start.  [processProject] is an [async]
    function with no [await]: [batch.map] runs each job to its end before
    it starts the next, and what is left to chance is only the order in
    which [Promise.all] hears of the promises, given by [schedule]. *)

Module Batch.

(** What the loop does that can be seen from outside: it starts the jobs
    of a wave, and it draws the progress bar. *)
Inductive event : Type :=
  | Launched (batch : list string)
  | Progress (current : JS.num) (total : Z).

Record run (R repo : Type) : Type := Run {
  results : list R;
  progressBar : ProgressBar.ProgressBar;
  disk : string -> repo;
  events : list event
}.
Arguments Run {R repo}.
Arguments results {R repo}.
Arguments progressBar {R repo}.
Arguments disk {R repo}.
Arguments events {R repo}.

(** How the action ends: it goes on to display the results, it reaches
    its [catch] and exits with status 1, it waits for ever on a promise,
    or it is still looping when the fuel runs out. *)
Inductive ending (R repo : Type) : Type :=
  | Returned (s : run R repo)
  | Exited (error : exn)
  | Hung
  | OutOfFuel.
Arguments Returned {R repo}.
Arguments Exited {R repo}.
Arguments Hung {R repo}.
Arguments OutOfFuel {R repo}.

(** [Promise.all]: each promise writes its value at its own index when
    it is heard of, the first rejection heard rejects the whole, and the
    whole is fulfilled once every index is written. *)
Fixpoint settle {A : Type} (promises : list (exn + A)) (order : list nat)
    (values : list (option A)) : exn + list (option A) :=
  match order with
  | [] => inr values
  | k :: order' =>
      match promises !! k with
      | Some (inr v) => settle promises order' (<[k := Some v]> values)
      | Some (inl e) => inl e
      | None => settle promises order' values
      end
  end.

Definition Promise_all {A : Type} (promises : list (exn + A)) (order : list nat)
    : option (exn + list A) :=
  match settle promises order (replicate (length promises) None) with
  | inl e => Some (inl e)
  | inr values => inr <$> mapM id values
  end.

Section Loop.
Context {R repo : Type}.
Variable processProject : string -> repo -> (exn + R) * frame R repo.
Variable targetDir : string.
Variable projectDirs : list string.
Variable schedule : list string -> list nat.

(** [batch.map(projectName => processProject(...))]. *)
Fixpoint launch (batch : list string) (d : string -> repo)
    : list (exn + R) * (string -> repo) :=
  match batch with
  | [] => ([], d)
  | projectName :: batch' =>
      let projectPath := path_join targetDir projectName in
      let '(promise, f) := processProject projectName (d projectPath) in
      let '(promises, d') := launch batch' (<[projectPath := cwd f]> d) in
      (promise :: promises, d')
  end.

Fixpoint waves (fuel : nat) (parallel i : JS.num) (s : run R repo) : ending R repo :=
  match fuel with
  | O => OutOfFuel
  | S fuel' =>
      let len := Some (Z.of_nat (length projectDirs)) in
      if JS.lt i len then
        let batch := JS.slice projectDirs i (JS.add i parallel) in
        let '(batchPromises, d') := launch batch (disk s) in
        match Promise_all batchPromises (schedule batch) with
        | Some (inr batchResults) =>
            let processed := JS.min (JS.add i parallel) len in
            let bar := ProgressBar.update (progressBar s) processed in
            waves fuel' parallel (JS.add i parallel)
              {| results := results s ++ batchResults;
                 progressBar := bar;
                 disk := d';
                 events := events s ++ [Launched batch;
                                        Progress (ProgressBar.current bar)
                                                 (ProgressBar.total bar)] |}
        | Some (inl e) => Exited e
        | None => Hung
        end
      else Returned s
  end.

(** The action from [parseInt(options.parallel)] to the end of the
    loop, on the directories found. *)
Definition action (fuel : nat) (options : Options) (d : string -> repo) : ending R repo :=
  let parallel := JS.parseInt (parallel options) in
  waves fuel parallel (Some 0%Z)
    {| results := [];
       progressBar := ProgressBar.createProgressBar (Z.of_nat (length projectDirs));
       disk := d;
       events := [] |}.
End Loop.

End Batch.

(** ** [merged.ts] *)

Module Merged.

Record MergeCheckResult : Type := {
  name : string;
  path : string;
  branchExists : bool;
  masterExists : bool;
  isMerged : bool;
  mergeCommit : option string;
  mergeDate : option string;
  error : option string;
  fetchSuccess : bool
}.

Definition set_branchExists (v : bool) (r : MergeCheckResult) : MergeCheckResult :=
  {| name := name r; path := path r; branchExists := v; masterExists := masterExists r;
     isMerged := isMerged r; mergeCommit := mergeCommit r; mergeDate := mergeDate r;
     error := error r; fetchSuccess := fetchSuccess r |}.

Definition set_masterExists (v : bool) (r : MergeCheckResult) : MergeCheckResult :=
  {| name := name r; path := path r; branchExists := branchExists r; masterExists := v;
     isMerged := isMerged r; mergeCommit := mergeCommit r; mergeDate := mergeDate r;
     error := error r; fetchSuccess := fetchSuccess r |}.

Definition set_isMerged (v : bool) (r : MergeCheckResult) : MergeCheckResult :=
  {| name := name r; path := path r; branchExists := branchExists r;
     masterExists := masterExists r; isMerged := v; mergeCommit := mergeCommit r;
     mergeDate := mergeDate r; error := error r; fetchSuccess := fetchSuccess r |}.

Definition set_mergeCommit (v : string) (r : MergeCheckResult) : MergeCheckResult :=
  {| name := name r; path := path r; branchExists := branchExists r;
     masterExists := masterExists r; isMerged := isMerged r; mergeCommit := Some v;
     mergeDate := mergeDate r; error := error r; fetchSuccess := fetchSuccess r |}.

Definition set_mergeDate (v : string) (r : MergeCheckResult) : MergeCheckResult :=
  {| name := name r; path := path r; branchExists := branchExists r;
     masterExists := masterExists r; isMerged := isMerged r; mergeCommit := mergeCommit r;
     mergeDate := Some v; error := error r; fetchSuccess := fetchSuccess r |}.

Definition set_error (v : string) (r : MergeCheckResult) : MergeCheckResult :=
  {| name := name r; path := path r; branchExists := branchExists r;
     masterExists := masterExists r; isMerged := isMerged r; mergeCommit := mergeCommit r;
     mergeDate := mergeDate r; error := Some v; fetchSuccess := fetchSuccess r |}.

Definition set_fetchSuccess (v : bool) (r : MergeCheckResult) : MergeCheckResult :=
  {| name := name r; path := path r; branchExists := branchExists r;
     masterExists := masterExists r; isMerged := isMerged r; mergeCommit := mergeCommit r;
     mergeDate := mergeDate r; error := error r; fetchSuccess := v |}.

Section Job.
Context {repo : Type} `{Git repo}.
Open Scope job_scope.

Abbreviation job := (M (frame MergeCheckResult repo)).

(** The statements of [processProject] inside its outer [try]. *)
Definition inspect (branchName baseBranch : string) (options : Options) : job unit :=
  (if fetch options then
     try_
       execSync GitFetch;;
       set_result (set_fetchSuccess true)
     catch_ fetchError in
       set_result (set_fetchSuccess false);;
       set_result (set_error ("Git fetch 失败: " +:+ fetchError))
   else
     set_result (set_fetchSuccess true));;

  (try_
     execSync (GitRevParseVerify baseBranch);;
     set_result (set_masterExists true);;
     set_actualMasterRef baseBranch
   catch_ _e in
     try_
       execSync (GitRevParseVerify ("origin/" +:+ baseBranch));;
       set_result (set_masterExists true);;
       set_actualMasterRef ("origin/" +:+ baseBranch)
     catch_ _e in
       set_result (set_masterExists false));;

  (try_
     execSync (GitRevParseVerify branchName);;
     set_result (set_branchExists true);;
     set_actualBranchRef branchName
   catch_ _e in
     try_
       execSync (GitRevParseVerify ("origin/" +:+ branchName));;
       set_result (set_branchExists true);;
       set_actualBranchRef ("origin/" +:+ branchName)
     catch_ _e in
       set_result (set_branchExists false));;

  both <- gets (fun s => branchExists (result s) && masterExists (result s));;
  when both
    (try_
       branchRef <- gets actualBranchRef;;
       branchOut <- execSync (GitRevParse branchRef);;
       let branchCommit := JS.trim branchOut in
       masterRef <- gets actualMasterRef;;
       masterOut <- execSync (GitRevParse masterRef);;
       let masterCommit := JS.trim masterOut in
       try_
         execSync (GitIsAncestor branchCommit masterCommit);;
         set_result (set_isMerged true);;
         try_
           mergeOut <- execSync (GitLogMerges branchName baseBranch);;
           let mergeInfo := JS.trim mergeOut in
           when (JS.truthy mergeInfo)
             (let commitPart := JS.before_space mergeInfo in
              when (JS.truthy commitPart) (set_result (set_mergeCommit commitPart));;
              found <- gets (fun s => mergeCommit (result s));;
              match found with
              | Some commit =>
                  when (JS.truthy commit)
                    (try_
                       dateOut <- execSync (GitLogDate commit);;
                       set_result (set_mergeDate (JS.trim dateOut))
                     catch_ _e in
                       ret tt)
              | None => ret tt
              end)
         catch_ _e in
           ret tt
       catch_ _e in
         set_result (set_isMerged false)
     catch_ error in
       set_result (set_error ("检查合并状态失败: " +:+ error))).

Definition processProject (projectName targetDir branchName baseBranch : string)
    (options : Options) (r : repo) : (exn + MergeCheckResult) * frame MergeCheckResult repo :=
  let projectPath := path_join targetDir projectName in
  let start :=
    {| result := {| name := projectName; path := projectPath; branchExists := false;
                    masterExists := false; isMerged := false; mergeCommit := None;
                    mergeDate := None; error := None; fetchSuccess := false |};
       actualBranchRef := branchName;
       actualMasterRef := baseBranch;
       cwd := r;
       executed := [] |} in
  ((try_
      inspect branchName baseBranch options
    catch_ error in
      set_result (set_error ("处理项目失败: " +:+ error)));;
   gets result) start.

(** The wave loop of [mergedCommand], on the project directories found
    under [targetDir]. *)
Definition mergedCommand (fuel : nat) (branchName targetDir : string)
    (projectDirs : list string) (schedule : list string -> list nat)
    (baseBranch : string) (options : Options) (d : string -> repo)
    : Batch.ending MergeCheckResult repo :=
  Batch.action
    (fun projectName => processProject projectName targetDir branchName baseBranch options)
    targetDir projectDirs schedule fuel options d.
End Job.

End Merged.

(** ** [uptodate.ts] *)

Module Uptodate.

Record MasterMergeCheckResult : Type := {
  name : string;
  path : string;
  branchExists : bool;
  masterExists : bool;
  hasMasterChanges : bool;
  isUpToDate : bool;
  behindCommits : Z;
  lastMasterCommit : option string;
  lastBranchCommit : option string;
  lastMasterDate : option string;
  lastBranchDate : option string;
  error : option string;
  fetchSuccess : bool
}.

Definition set_branchExists (v : bool) (r : MasterMergeCheckResult) : MasterMergeCheckResult :=
  {| name := name r; path := path r; branchExists := v; masterExists := masterExists r;
     hasMasterChanges := hasMasterChanges r; isUpToDate := isUpToDate r;
     behindCommits := behindCommits r; lastMasterCommit := lastMasterCommit r;
     lastBranchCommit := lastBranchCommit r; lastMasterDate := lastMasterDate r;
     lastBranchDate := lastBranchDate r; error := error r;
     fetchSuccess := fetchSuccess r |}.

Definition set_masterExists (v : bool) (r : MasterMergeCheckResult) : MasterMergeCheckResult :=
  {| name := name r; path := path r; branchExists := branchExists r; masterExists := v;
     hasMasterChanges := hasMasterChanges r; isUpToDate := isUpToDate r;
     behindCommits := behindCommits r; lastMasterCommit := lastMasterCommit r;
     lastBranchCommit := lastBranchCommit r; lastMasterDate := lastMasterDate r;
     lastBranchDate := lastBranchDate r; error := error r;
     fetchSuccess := fetchSuccess r |}.

Definition set_hasMasterChanges (v : bool) (r : MasterMergeCheckResult) : MasterMergeCheckResult :=
  {| name := name r; path := path r; branchExists := branchExists r;
     masterExists := masterExists r; hasMasterChanges := v; isUpToDate := isUpToDate r;
     behindCommits := behindCommits r; lastMasterCommit := lastMasterCommit r;
     lastBranchCommit := lastBranchCommit r; lastMasterDate := lastMasterDate r;
     lastBranchDate := lastBranchDate r; error := error r;
     fetchSuccess := fetchSuccess r |}.

Definition set_isUpToDate (v : bool) (r : MasterMergeCheckResult) : MasterMergeCheckResult :=
  {| name := name r; path := path r; branchExists := branchExists r;
     masterExists := masterExists r; hasMasterChanges := hasMasterChanges r;
     isUpToDate := v; behindCommits := behindCommits r;
     lastMasterCommit := lastMasterCommit r; lastBranchCommit := lastBranchCommit r;
     lastMasterDate := lastMasterDate r; lastBranchDate := lastBranchDate r;
     error := error r; fetchSuccess := fetchSuccess r |}.

Definition set_behindCommits (v : Z) (r : MasterMergeCheckResult) : MasterMergeCheckResult :=
  {| name := name r; path := path r; branchExists := branchExists r;
     masterExists := masterExists r; hasMasterChanges := hasMasterChanges r;
     isUpToDate := isUpToDate r; behindCommits := v;
     lastMasterCommit := lastMasterCommit r; lastBranchCommit := lastBranchCommit r;
     lastMasterDate := lastMasterDate r; lastBranchDate := lastBranchDate r;
     error := error r; fetchSuccess := fetchSuccess r |}.

Definition set_lastMasterCommit (v : string) (r : MasterMergeCheckResult) : MasterMergeCheckResult :=
  {| name := name r; path := path r; branchExists := branchExists r;
     masterExists := masterExists r; hasMasterChanges := hasMasterChanges r;
     isUpToDate := isUpToDate r; behindCommits := behindCommits r;
     lastMasterCommit := Some v; lastBranchCommit := lastBranchCommit r;
     lastMasterDate := lastMasterDate r; lastBranchDate := lastBranchDate r;
     error := error r; fetchSuccess := fetchSuccess r |}.

Definition set_lastBranchCommit (v : string) (r : MasterMergeCheckResult) : MasterMergeCheckResult :=
  {| name := name r; path := path r; branchExists := branchExists r;
     masterExists := masterExists r; hasMasterChanges := hasMasterChanges r;
     isUpToDate := isUpToDate r; behindCommits := behindCommits r;
     lastMasterCommit := lastMasterCommit r; lastBranchCommit := Some v;
     lastMasterDate := lastMasterDate r; lastBranchDate := lastBranchDate r;
     error := error r; fetchSuccess := fetchSuccess r |}.

Definition set_lastMasterDate (v : string) (r : MasterMergeCheckResult) : MasterMergeCheckResult :=
  {| name := name r; path := path r; branchExists := branchExists r;
     masterExists := masterExists r; hasMasterChanges := hasMasterChanges r;
     isUpToDate := isUpToDate r; behindCommits := behindCommits r;
     lastMasterCommit := lastMasterCommit r; lastBranchCommit := lastBranchCommit r;
     lastMasterDate := Some v; lastBranchDate := lastBranchDate r; error := error r;
     fetchSuccess := fetchSuccess r |}.

Definition set_lastBranchDate (v : string) (r : MasterMergeCheckResult) : MasterMergeCheckResult :=
  {| name := name r; path := path r; branchExists := branchExists r;
     masterExists := masterExists r; hasMasterChanges := hasMasterChanges r;
     isUpToDate := isUpToDate r; behindCommits := behindCommits r;
     lastMasterCommit := lastMasterCommit r; lastBranchCommit := lastBranchCommit r;
     lastMasterDate := lastMasterDate r; lastBranchDate := Some v; error := error r;
     fetchSuccess := fetchSuccess r |}.

Definition set_error (v : string) (r : MasterMergeCheckResult) : MasterMergeCheckResult :=
  {| name := name r; path := path r; branchExists := branchExists r;
     masterExists := masterExists r; hasMasterChanges := hasMasterChanges r;
     isUpToDate := isUpToDate r; behindCommits := behindCommits r;
     lastMasterCommit := lastMasterCommit r; lastBranchCommit := lastBranchCommit r;
     lastMasterDate := lastMasterDate r; lastBranchDate := lastBranchDate r;
     error := Some v; fetchSuccess := fetchSuccess r |}.

Definition set_fetchSuccess (v : bool) (r : MasterMergeCheckResult) : MasterMergeCheckResult :=
  {| name := name r; path := path r; branchExists := branchExists r;
     masterExists := masterExists r; hasMasterChanges := hasMasterChanges r;
     isUpToDate := isUpToDate r; behindCommits := behindCommits r;
     lastMasterCommit := lastMasterCommit r; lastBranchCommit := lastBranchCommit r;
     lastMasterDate := lastMasterDate r; lastBranchDate := lastBranchDate r;
     error := error r; fetchSuccess := v |}.

Section Job.
Context {repo : Type} `{Git repo}.
Open Scope job_scope.

Abbreviation job := (M (frame MasterMergeCheckResult repo)).

(** The statements of [processProject] inside its outer [try]. *)
Definition inspect (branchName baseBranch : string) (options : Options) : job unit :=
  (if fetch options then
     try_
       execSync GitFetch;;
       set_result (set_fetchSuccess true)
     catch_ fetchError in
       set_result (set_fetchSuccess false);;
       set_result (set_error ("Git fetch 失败: " +:+ fetchError))
   else
     set_result (set_fetchSuccess true));;

  (try_
     execSync (GitRevParseVerify baseBranch);;
     set_result (set_masterExists true);;
     set_actualMasterRef baseBranch
   catch_ _e in
     try_
       execSync (GitRevParseVerify ("origin/" +:+ baseBranch));;
       set_result (set_masterExists true);;
       set_actualMasterRef ("origin/" +:+ baseBranch)
     catch_ _e in
       set_result (set_masterExists false));;

  (try_
     execSync (GitRevParseVerify branchName);;
     set_result (set_branchExists true);;
     set_actualBranchRef branchName
   catch_ _e in
     try_
       execSync (GitRevParseVerify ("origin/" +:+ branchName));;
       set_result (set_branchExists true);;
       set_actualBranchRef ("origin/" +:+ branchName)
     catch_ _e in
       set_result (set_branchExists false));;

  both <- gets (fun s => branchExists (result s) && masterExists (result s));;
  when both
    (try_
       masterRef <- gets actualMasterRef;;
       masterOut <- execSync (GitRevParse masterRef);;
       let masterCommit := JS.trim masterOut in
       branchRef <- gets actualBranchRef;;
       branchOut <- execSync (GitRevParse branchRef);;
       let branchCommit := JS.trim branchOut in
       set_result (set_lastMasterCommit masterCommit);;
       set_result (set_lastBranchCommit branchCommit);;
       (try_
          masterDate <- execSync (GitLogDate masterCommit);;
          set_result (set_lastMasterDate (JS.trim masterDate))
        catch_ _e in
          ret tt);;
       (try_
          branchDate <- execSync (GitLogDate branchCommit);;
          set_result (set_lastBranchDate (JS.trim branchDate))
        catch_ _e in
          ret tt);;
       try_
         execSync (GitIsAncestor masterCommit branchCommit);;
         set_result (set_isUpToDate true);;
         set_result (set_hasMasterChanges false)
       catch_ _e in
         set_result (set_isUpToDate false);;
         set_result (set_hasMasterChanges true);;
         try_
           behindCount <- execSync (GitRevListCount branchName baseBranch);;
           set_result (set_behindCommits (JS.or_zero (JS.parseInt (JS.trim behindCount))))
         catch_ _e in
           set_result (set_behindCommits 0)
     catch_ error in
       set_result (set_error ("检查合并状态失败: " +:+ error))).

Definition processProject (projectName targetDir branchName baseBranch : string)
    (options : Options) (r : repo)
    : (exn + MasterMergeCheckResult) * frame MasterMergeCheckResult repo :=
  let projectPath := path_join targetDir projectName in
  let start :=
    {| result := {| name := projectName; path := projectPath; branchExists := false;
                    masterExists := false; hasMasterChanges := false;
                    isUpToDate := false; behindCommits := 0;
                    lastMasterCommit := None; lastBranchCommit := None;
                    lastMasterDate := None; lastBranchDate := None;
                    error := None; fetchSuccess := false |};
       actualBranchRef := branchName;
       actualMasterRef := baseBranch;
       cwd := r;
       executed := [] |} in
  ((try_
      inspect branchName baseBranch options
    catch_ error in
      set_result (set_error ("处理项目失败: " +:+ error)));;
   gets result) start.

(** The wave loop of [uptodateCommand], on the project directories found
    under [targetDir]. *)
Definition uptodateCommand (fuel : nat) (branchName targetDir : string)
    (projectDirs : list string) (schedule : list string -> list nat)
    (baseBranch : string) (options : Options) (d : string -> repo)
    : Batch.ending MasterMergeCheckResult repo :=
  Batch.action
    (fun projectName => processProject projectName targetDir branchName baseBranch options)
    targetDir projectDirs schedule fuel options d.
End Job.

End Uptodate.

(** ** A model of [git]

    The part of [git] the commands rely on: a commit graph, references
    under the short names [git] resolves them by (a local branch [b] as
    [b], its remote-tracking branch as [origin/b]) and the branches of the
    remote.  The texts [git log] prints are given by the repository. *)

Module GitModel.

Record repository : Type := {
  parents : gmap string (list string);
  refs : gmap string string;
  remote : option (gmap string string);
  log_date : string -> outcome;
  log_merges : string -> string -> outcome
}.

(** A revision argument names a reference or is a commit hash. *)
Definition rev_parse (r : repository) (rev : string) : option string :=
  match refs r !! rev with
  | Some commit => Some commit
  | None => if decide (is_Some (parents r !! rev)) then Some rev else None
  end.

(** The commits reachable from [commit] in at most [depth] steps. *)
Fixpoint reachable (depth : nat) (graph : gmap string (list string)) (commit : string)
    : gset string :=
  match depth with
  | O => {[ commit ]}
  | S depth' =>
      {[ commit ]} ∪ ⋃ (reachable depth' graph <$> default [] (graph !! commit))
  end.

Definition history (r : repository) (commit : string) : gset string :=
  reachable (size (parents r)) (parents r) commit.

Definition is_ancestor (r : repository) (candidate descendant : string) : bool :=
  bool_decide (candidate ∈ history r descendant).

(** The number [git rev-list --count since..until] prints. *)
Definition count_behind (r : repository) (since until : string) : nat :=
  size (history r until ∖ history r since).

Definition decimal (n : nat) : string :=
  DecimalString.NilZero.string_of_uint (Nat.to_uint n).

Definition newline : string := String (ascii_of_nat 10) EmptyString.

Definition failed (c : command) : outcome :=
  Throw ("Error: Command failed: " +:+ command_line c).

Definition read (c : command) (r : repository) : outcome :=
  match c with
  | GitFetch => failed c
  | GitRevParseVerify rev | GitRevParse rev =>
      match rev_parse r rev with
      | Some commit => Ok (commit +:+ newline)
      | None => failed c
      end
  | GitLogDate commit => log_date r commit
  | GitIsAncestor a b =>
      match rev_parse r a, rev_parse r b with
      | Some ca, Some cb => if is_ancestor r ca cb then Ok "" else failed c
      | _, _ => failed c
      end
  | GitRevListCount a b =>
      match rev_parse r a, rev_parse r b with
      | Some ca, Some cb => Ok (decimal (count_behind r ca cb) +:+ newline)
      | _, _ => failed c
      end
  | GitLogMerges branchName baseBranch => log_merges r branchName baseBranch
  end.

Definition is_remote_tracking (refname : string) : bool :=
  String.prefix "origin/" refname.

(** [git fetch --all --prune]: the remote-tracking references become
    the branches of the remote; it fails when the remote is out of
    reach. *)
Definition fetch_all (r : repository) : outcome * repository :=
  match remote r with
  | Some branches =>
      let locals := filter (fun kv => is_remote_tracking kv.1 = false) (refs r) in
      let tracked := kmap (String.append "origin/") branches in
      (Ok "",
       {| parents := parents r; refs := locals ∪ tracked; remote := remote r;
          log_date := log_date r; log_merges := log_merges r |})
  | None => (failed GitFetch, r)
  end.

#[global] Instance git_model : Git repository :=
  {| git_fetch := fetch_all; git_read := read |}.

End GitModel.

(** ** Scripted repositories

    A repository given by the answer to each command; [git fetch] leaves
    it as it is. *)

Module Scripted.

Definition repository : Type := command -> outcome.

#[global] Instance git_scripted : Git repository :=
  {| git_fetch := fun r => (r GitFetch, r); git_read := fun c r => r c |}.

End Scripted.

(** ** The vocabulary of the specification *)

Inductive direction : Type :=
  | BranchIntoBase
  | BaseIntoBranch.

Section Vocabulary.
Context {repo : Type} `{Git repo}.

(** The repository the references are resolved in: the one the fetch
    left when it ran. *)
Definition after_fetch (options : Options) (r : repo) : repo :=
  if fetch options then (git_fetch r).2 else r.

(** The text the fetch leaves in [error] when it ran and threw. *)
Definition fetch_error (options : Options) (r : repo) : option string :=
  if fetch options then
    match (git_fetch r).1 with
    | Ok _ => None
    | Throw e => Some ("Git fetch 失败: " +:+ e)
    end
  else None.

(** The command the fetch step runs, if any. *)
Definition fetch_commands (options : Options) : list command :=
  if fetch options then [GitFetch] else [].

(** [git rev-parse --verify ref] succeeds. *)
Definition verifies (r : repo) (ref : string) : bool :=
  succeeded (git_read (GitRevParseVerify ref) r).

(** The RefResolver of the specification: the local name if it
    verifies, else the [origin/] name if that verifies, else nothing. *)
Definition resolve (r : repo) (refName : string) : option string :=
  if verifies r refName then Some refName
  else if verifies r ("origin/" +:+ refName) then Some ("origin/" +:+ refName)
  else None.

(** The commands the resolution of [refName] runs: the remote-tracking
    name is tried only after the local name failed. *)
Definition resolution_commands (r : repo) (refName : string) : list command :=
  GitRevParseVerify refName ::
  (if verifies r refName then [] else [GitRevParseVerify ("origin/" +:+ refName)]).

(** The commit [git rev-parse] gives for a resolved name. *)
Definition commit_of (r : repo) (resolvedName : string) : exn + string :=
  match git_read (GitRevParse resolvedName) r with
  | Ok stdout => inr (JS.trim stdout)
  | Throw e => inl e
  end.

(** [candidate] is an ancestor of [descendant], as
    [git merge-base --is-ancestor] answers. *)
Definition ancestor (r : repo) (candidate descendant : string) : bool :=
  succeeded (git_read (GitIsAncestor candidate descendant) r).

(** The verdict of the specification for the two directions of
    inspection, on the commits of the two resolved names. *)
Definition satisfied (d : direction) (r : repo) (branchName baseBranch : string) : bool :=
  match resolve r branchName, resolve r baseBranch with
  | Some branchRef, Some baseRef =>
      match commit_of r branchRef, commit_of r baseRef with
      | inr branchCommit, inr baseCommit =>
          match d with
          | BranchIntoBase => ancestor r branchCommit baseCommit
          | BaseIntoBranch => ancestor r baseCommit branchCommit
          end
      | _, _ => false
      end
  | _, _ => false
  end.

(** The error of the commit resolution, in the order the job resolves
    the two names: the branch first for [merged], the base first for
    [uptodate]. *)
Definition resolution_error (d : direction) (r : repo) (branchName baseBranch : string)
    : option exn :=
  match resolve r branchName, resolve r baseBranch with
  | Some branchRef, Some baseRef =>
      let '(first, second) :=
        match d with
        | BranchIntoBase => (branchRef, baseRef)
        | BaseIntoBranch => (baseRef, branchRef)
        end in
      match commit_of r first with
      | inl e => Some e
      | inr _ =>
          match commit_of r second with
          | inl e => Some e
          | inr _ => None
          end
      end
  | _, _ => None
  end.

(** What a job leaves in [error]: the failure of the commit resolution,
    else the failure of the fetch, else nothing. *)
Definition recorded_error (d : direction) (options : Options) (r : repo)
    (branchName baseBranch : string) : option string :=
  match resolution_error d (after_fetch options r) branchName baseBranch with
  | Some e => Some ("检查合并状态失败: " +:+ e)
  | None => fetch_error options r
  end.

(** The number read off [git rev-list --count since..until]: 0 when the
    command fails or prints no number. *)
Definition counted (r : repo) (since until : string) : Z :=
  match git_read (GitRevListCount since until) r with
  | Ok stdout => JS.or_zero (JS.parseInt (JS.trim stdout))
  | Throw _ => 0
  end.

(** The commands of the resolution. *)
Definition is_verify (c : command) : bool :=
  match c with
  | GitRevParseVerify _ => true
  | _ => false
  end.

(** The commands of the ancestry computation: commit resolution, the
    ancestry test and the count. *)
Definition is_ancestry (c : command) : bool :=
  match c with
  | GitRevParse _ | GitIsAncestor _ _ | GitRevListCount _ _ => true
  | _ => false
  end.
End Vocabulary.

(** ** The vocabulary of the scheduler *)

(** The events of a run whose waves are [waves], [completed] jobs being
    done before the first of them: each wave is started, then the bar is
    drawn once with the number of jobs done so far. *)
Fixpoint report (completed total : Z) (waves : list (list string)) : list Batch.event :=
  match waves with
  | [] => []
  | batch :: waves' =>
      let completed' := (completed + Z.of_nat (length batch))%Z in
      Batch.Launched batch :: Batch.Progress (Some completed') total
        :: report completed' total waves'
  end.

(** The counts the bar was drawn with, in order. *)
Definition progress_counts (events : list Batch.event) : list JS.num :=
  flat_map (fun e => match e with
                     | Batch.Progress current _ => [current]
                     | Batch.Launched _ => []
                     end) events.

(** The number of jobs done after each wave of [waves]. *)
Fixpoint cumulative (completed : Z) (waves : list (list string)) : list Z :=
  match waves with
  | [] => []
  | batch :: waves' =>
      let completed' := (completed + Z.of_nat (length batch))%Z in
      completed' :: cumulative completed' waves'
  end.

(** ** Scenarios *)

Module Scenarios.
Import GitModel.

Definition no_fetch : Options := {| fetch := false; parallel := "5" |}.
Definition with_fetch : Options := {| fetch := true; parallel := "5" |}.

Definition dated (commit : string) : outcome :=
  Ok ("2024-05-06 10:00:00 +0800" +:+ newline).
Definition no_merge (branchName baseBranch : string) : outcome := Ok "".

(** [c0 <- m1 <- m2 <- m3] is [master]; [c0 <- f1] is the branch. *)
Definition graph : gmap string (list string) :=
  list_to_map [("c0", []); ("f1", ["c0"]); ("f2", ["f1"]);
               ("m1", ["c0"]); ("m2", ["m1"]); ("m3", ["m2"])].

(** Repository A: [feature/x] and [master] are local branches. *)
Definition repoA : repository :=
  {| parents := graph;
     refs := list_to_map [("master", "m3"); ("feature/x", "f1")];
     remote := None; log_date := dated; log_merges := no_merge |}.

(** Repository B: [feature/y] exists only as [origin/feature/y]. *)
Definition repoB : repository :=
  {| parents := graph;
     refs := list_to_map [("master", "m3"); ("origin/feature/y", "f1")];
     remote := None; log_date := dated; log_merges := no_merge |}.

(** Repository C: no [feature/z] at all, and a remote out of reach. *)
Definition repoC : repository :=
  {| parents := graph;
     refs := list_to_map [("master", "m3")];
     remote := None; log_date := dated; log_merges := no_merge |}.

(** Repositories E and F: the same names, [master] one commit and two
    commits away from the common ancestor, the branch likewise. *)
Definition repoE : repository :=
  {| parents := graph;
     refs := list_to_map [("master", "m1"); ("feature/x", "f1")];
     remote := None; log_date := dated; log_merges := no_merge |}.

Definition repoF : repository :=
  {| parents := graph;
     refs := list_to_map [("master", "m2"); ("feature/x", "f2")];
     remote := None; log_date := dated; log_merges := no_merge |}.

(** Repository D: both names are local branches, and the call that runs
    the ancestry test fails to start. *)
Definition repoD : Scripted.repository :=
  fun c =>
    match c with
    | GitRevParse "feature/w" => Ok ("f1" +:+ newline)
    | GitRevParse "master" => Ok ("m3" +:+ newline)
    | GitIsAncestor _ _ => Throw "Error: spawnSync /bin/sh EAGAIN"
    | _ => Ok ""
    end.

(** A fleet in which every directory holds repository A, waves of two,
    and promises heard of last first. *)
Definition fleet (projectPath : string) : repository := repoA.
Definition two_at_a_time : Options := {| fetch := false; parallel := "2" |}.
Definition backwards (batch : list string) : list nat := reverse (seq 0 (length batch)).

End Scenarios.

(** ** More of JavaScript: lines, prefixes, arrays *)

Module JSText.

Definition newline : ascii := ascii_of_nat 10.

(** [s.split(sep)] for a separator of one character: a string with [n]
    separators gives [n + 1] parts, the empty string one empty part. *)
Fixpoint split (sep : ascii) (s : string) : list string :=
  match s with
  | EmptyString => [EmptyString]
  | String c s' =>
      if Ascii.eqb c sep then EmptyString :: split sep s'
      else
        match split sep s' with
        | part :: parts => String c part :: parts
        | [] => [String c EmptyString]
        end
  end.

(** [parts.join(sep)]. *)
Fixpoint join (sep : ascii) (parts : list string) : string :=
  match parts with
  | [] => EmptyString
  | [part] => part
  | part :: parts' => part +:+ String sep (join sep parts')
  end.

(** [s.startsWith(p)]. *)
Definition startsWith (p s : string) : bool := String.prefix p s.

(** [s.replace(/^p/, '')] for a literal [p]: [s] without its prefix [p]. *)
Definition strip_prefix (p s : string) : string :=
  if startsWith p s then String.substring (String.length p) (String.length s - String.length p) s
  else s.

(** [s.includes(sub)]. *)
Fixpoint includes (sub s : string) : bool :=
  String.prefix sub s
  || match s with
     | String _ s' => includes sub s'
     | EmptyString => false
     end.

(** [arr.indexOf(x)]; [None] stands for -1. *)
Fixpoint indexOf (x : string) (arr : list string) : option nat :=
  match arr with
  | [] => None
  | y :: arr' => if String.eqb y x then Some O else S <$> indexOf x arr'
  end.

(** [arr.filter((x, index, arr) => arr.indexOf(x) === index)]. *)
Definition first_occurrences (arr : list string) : list string :=
  (List.filter (fun ix => bool_decide (indexOf ix.2 arr = Some ix.1)) (imap pair arr)).*2.

(** [x >= y] on numbers. *)
Definition ge (x y : JS.num) : bool :=
  match x, y with
  | Some a, Some b => (b <=? a)%Z
  | _, _ => false
  end.

(** [s.length > limit ? s.substring(0, keep) + '...' : s]. *)
Definition truncate (limit keep : nat) (s : string) : string :=
  if (limit <? String.length s)%nat then String.substring 0 keep s +:+ "..." else s.

End JSText.

(** ** [ProgressBar]: the other methods *)

Module ProgressOps.
Import ProgressBar.

(** [tick(increment)]. *)
Definition tick (bar : ProgressBar) (increment : JS.num) : ProgressBar :=
  update bar (JS.add (current bar) increment).

(** [complete()]. *)
Definition complete (bar : ProgressBar) : ProgressBar :=
  update bar (Some (total bar)).

(** [isComplete()]. *)
Definition isComplete (bar : ProgressBar) : bool :=
  JSText.ge (current bar) (Some (total bar)).

End ProgressOps.

(** ** [displayResults] of [merged.ts]: the lists and the counts *)

Module MergedReport.
Import Merged.

(** [r.error] as a condition: set and not empty. *)
Definition has_error (r : MergeCheckResult) : bool :=
  match error r with
  | Some e => JS.truthy e
  | None => false
  end.

Definition mergedResults (results : list MergeCheckResult) : list MergeCheckResult :=
  List.filter isMerged results.

Definition notMergedResults (results : list MergeCheckResult) : list MergeCheckResult :=
  List.filter (fun r => branchExists r && masterExists r && negb (isMerged r)) results.

Definition missingBranchResults (results : list MergeCheckResult) : list MergeCheckResult :=
  List.filter (fun r => negb (branchExists r)) results.

Definition missingMasterResults (results : list MergeCheckResult) : list MergeCheckResult :=
  List.filter (fun r => negb (masterExists r)) results.

Definition errorResults (results : list MergeCheckResult) : list MergeCheckResult :=
  List.filter has_error results.

(** The [summary] object of the [json] format. *)
Record Summary : Type := {
  total : nat;
  merged : nat;
  notMerged : nat;
  missingBranch : nat;
  missingMaster : nat;
  errors : nat
}.

Definition summary (results : list MergeCheckResult) : Summary :=
  {| total := length results;
     merged := length (mergedResults results);
     notMerged := length (notMergedResults results);
     missingBranch := length (missingBranchResults results);
     missingMaster := length (missingMasterResults results);
     errors := length (errorResults results) |}.

(** The rows of the table: the merged projects, then the others that have
    both refs. *)
Definition validResults (results : list MergeCheckResult) : list MergeCheckResult :=
  mergedResults results ++ notMergedResults results.

(** The name and the branch as the table shows them. *)
Definition truncatedName (r : MergeCheckResult) : string :=
  JSText.truncate 27 24 (name r).

Definition truncatedBranch (branchName : string) : string :=
  JSText.truncate 17 14 branchName.

End MergedReport.

(** ** [displayResults] of [uptodate.ts]: the lists and the counts *)

Module UptodateReport.
Import Uptodate.

Definition has_error (r : MasterMergeCheckResult) : bool :=
  match error r with
  | Some e => JS.truthy e
  | None => false
  end.

Definition upToDateResults (results : list MasterMergeCheckResult)
    : list MasterMergeCheckResult :=
  List.filter isUpToDate results.

Definition behindResults (results : list MasterMergeCheckResult)
    : list MasterMergeCheckResult :=
  List.filter (fun r => hasMasterChanges r && (0 <? behindCommits r)%Z) results.

Definition missingBranchResults (results : list MasterMergeCheckResult)
    : list MasterMergeCheckResult :=
  List.filter (fun r => negb (branchExists r)) results.

Definition missingMasterResults (results : list MasterMergeCheckResult)
    : list MasterMergeCheckResult :=
  List.filter (fun r => negb (masterExists r)) results.

Definition errorResults (results : list MasterMergeCheckResult)
    : list MasterMergeCheckResult :=
  List.filter has_error results.

Record Summary : Type := {
  total : nat;
  upToDate : nat;
  behind : nat;
  missingBranch : nat;
  missingMaster : nat;
  errors : nat
}.

Definition summary (results : list MasterMergeCheckResult) : Summary :=
  {| total := length results;
     upToDate := length (upToDateResults results);
     behind := length (behindResults results);
     missingBranch := length (missingBranchResults results);
     missingMaster := length (missingMasterResults results);
     errors := length (errorResults results) |}.

(** The rows of the table: the projects that have both refs. *)
Definition validResults (results : list MasterMergeCheckResult)
    : list MasterMergeCheckResult :=
  List.filter (fun r => branchExists r && masterExists r) results.

Definition truncatedName (r : MasterMergeCheckResult) : string :=
  JSText.truncate 27 24 (name r).

Definition truncatedBranch (branchName : string) : string :=
  JSText.truncate 17 14 branchName.

End UptodateReport.

(** ** The [branch] command (the second half of [merged.ts]) *)

Module Branch.

(** The options of the command; [--remote] sets [remote]. *)
Record Options : Type := {
  fetch : bool;
  remote : bool;
  parallel : string
}.

Inductive command : Type :=
  | GitFetchAll
  | GitBranch (all : bool).

Definition command_line (c : command) : string :=
  match c with
  | GitFetchAll => "git fetch --all"
  | GitBranch false => "git branch"
  | GitBranch true => "git branch -a"
  end.

(** The repository as the two commands see it.  The text of a [Throw] is
    the [message] of the error here. *)
Class Git (repo : Type) : Type := {
  git_fetch : repo -> outcome * repo;
  git_branch : bool -> repo -> outcome
}.

Record BranchSearchResult : Type := {
  name : string;
  path : string;
  branches : list string;
  hasTargetBranch : bool;
  fetchSuccess : bool;
  error : option string
}.

(** The state of a job: the record, the repository, the commands run and
    the lines written to the console. *)
Record frame (repo : Type) : Type := Frame {
  result : BranchSearchResult;
  cwd : repo;
  executed : list command;
  console : list string
}.
Arguments Frame {repo}.
Arguments result {repo}.
Arguments cwd {repo}.
Arguments executed {repo}.
Arguments console {repo}.

(** [line.trim().replace(/^\*\s*/, '').replace(/^remotes\/origin\//, '')]. *)
Definition strip_star (line : string) : string :=
  match line with
  | String "*" rest => JS.trimStart rest
  | _ => line
  end.

Definition branch_of_line (line : string) : string :=
  JSText.strip_prefix "remotes/origin/" (strip_star (JS.trim line)).

Definition is_branch (line : string) : bool :=
  JS.truthy line && negb (JSText.includes "HEAD ->" line).

(** The branches read off the output of [git branch]. *)
Definition parse_branches (branchOutput : string) : list string :=
  JSText.first_occurrences
    (List.filter is_branch (map branch_of_line (JSText.split JSText.newline branchOutput))).

Section Job.
Context {repo : Type} `{Git repo}.
Open Scope job_scope.

Definition execSync (c : command) : M (frame repo) string :=
fun s =>
  let '(o, r') :=
    match c with
    | GitFetchAll => git_fetch (cwd s)
    | GitBranch all => (git_branch all (cwd s), cwd s)
    end in
  let s' := Frame (result s) r' (executed s ++ [c]) (console s) in
  match o with
  | Ok stdout => (inr stdout, s')
  | Throw error => (inl error, s')
  end.

Definition console_log (line : string) : M (frame repo) unit :=
modify (fun s => Frame (result s) (cwd s) (executed s) (console s ++ [line])).

Definition set_result (f : BranchSearchResult -> BranchSearchResult) : M (frame repo) unit :=
modify (fun s => Frame (f (result s)) (cwd s) (executed s) (console s)).

Definition set_fetchSuccess (v : bool) (r : BranchSearchResult) : BranchSearchResult :=
{| name := name r; path := path r; branches := branches r;
   hasTargetBranch := hasTargetBranch r; fetchSuccess := v; error := error r |}.

Definition set_branches (v : list string) (r : BranchSearchResult) : BranchSearchResult :=
{| name := name r; path := path r; branches := v;
   hasTargetBranch := hasTargetBranch r; fetchSuccess := fetchSuccess r;
   error := error r |}.

Definition set_hasTargetBranch (v : bool) (r : BranchSearchResult) : BranchSearchResult :=
{| name := name r; path := path r; branches := branches r;
   hasTargetBranch := v; fetchSuccess := fetchSuccess r; error := error r |}.

Definition set_error (v : string) (r : BranchSearchResult) : BranchSearchResult :=
{| name := name r; path := path r; branches := branches r;
   hasTargetBranch := hasTargetBranch r; fetchSuccess := fetchSuccess r;
   error := Some v |}.

Definition processProject (projectName targetDir branchName : string) (options : Options)
  (r : repo) : (exn + BranchSearchResult) * frame repo :=
let projectPath := path_join targetDir projectName in
let start :=
  {| result := {| name := projectName; path := projectPath; branches := [];
                  hasTargetBranch := false; fetchSuccess := false; error := None |};
     cwd := r;
     executed := [];
     console := [] |} in
((try_
    when (fetch options)
      (try_
         execSync GitFetchAll;;
         set_result (set_fetchSuccess true)
       catch_ fetchError in
         console_log ("⚠️  " +:+ projectName
                      +:+ ": git fetch 失败，继续使用本地分支信息"));;
    let branchCommand := GitBranch (remote options) in
    branchOutput <- execSync branchCommand;;
    let found := parse_branches branchOutput in
    set_result (set_branches found);;
    set_result (set_hasTargetBranch (existsb (String.eqb branchName) found))
  catch_ error in
    set_result (set_error error));;
 gets result) start.
End Job.

(** The two lists the action makes of the records. *)
Definition has_error (r : BranchSearchResult) : bool :=
  match error r with
  | Some e => JS.truthy e
  | None => false
  end.

Definition matchedProjects (results : list BranchSearchResult) : list BranchSearchResult :=
  List.filter hasTargetBranch results.

Definition failedProjects (results : list BranchSearchResult) : list BranchSearchResult :=
  List.filter has_error results.

End Branch.

(** ** [config/index.ts]: the blacklist file *)

Module Config.

(** A file system as the two functions need it: a path holds a file that
    can be read and written, or one that cannot.  Directories are not
    modelled ([ensureConfigDir] has nothing to do). *)
Inductive node : Type :=
  | File (content : string)
  | Denied.

Definition existsSync (fs : gmap string node) (path : string) : bool :=
  bool_decide (is_Some (fs !! path)).

Definition readFileSync (fs : gmap string node) (path : string) : exn + string :=
  match fs !! path with
  | Some (File content) => inr content
  | Some Denied => inl ("EACCES: permission denied, open '" +:+ path +:+ "'")
  | None => inl ("ENOENT: no such file or directory, open '" +:+ path +:+ "'")
  end.

Definition writeFileSync (fs : gmap string node) (path content : string)
    : exn + gmap string node :=
  match fs !! path with
  | Some Denied => inl ("EACCES: permission denied, open '" +:+ path +:+ "'")
  | _ => inr (<[path := File content]> fs)
  end.

Definition getConfigDir (homedir : string) : string := path_join homedir ".feops".

Definition getBlacklistPath (homedir : string) : string :=
  path_join (getConfigDir homedir) "blacklist.txt".

(** The lines [saveBlacklist] writes before the entries. *)
Definition header : list string :=
  ["# 黑名单配置文件"; "# 以 # 开头的行为注释,会被忽略"; "# 每行一个仓库名称"; ""].

Definition is_entry (line : string) : bool :=
  JS.truthy line && negb (JSText.startsWith "#" line).

Definition loadBlacklist (homedir : string) (fs : gmap string node) : list string :=
  let blacklistPath := getBlacklistPath homedir in
  if negb (existsSync fs blacklistPath) then []
  else
    match readFileSync fs blacklistPath with
    | inr content =>
        List.filter is_entry (map JS.trim (JSText.split JSText.newline content))
    | inl _ => []
    end.

Definition saveBlacklist (homedir : string) (blacklist : list string)
    (fs : gmap string node) : exn + gmap string node :=
  let blacklistPath := getBlacklistPath homedir in
  let content := JSText.join JSText.newline (header ++ blacklist) in
  match writeFileSync fs blacklistPath content with
  | inr fs' => inr fs'
  | inl message => inl ("保存黑名单文件失败: " +:+ message)
  end.

End Config.

(** ** [utils/updateChecker.ts]: the comparison of versions *)

Module UpdateChecker.

Section Compare.
(** The numbers of JavaScript, their order and [Number(text)], which is
  [None] for [NaN]. *)
Context {V : Type}.
Variable zero : V.
Variable ltb : V -> V -> bool.
Variable Number : string -> option V.

(** [parts[i] || 0]: a missing part, [NaN] and zero all give zero. *)
Definition part (parts : list (option V)) (i : nat) : V :=
match parts !! i with
| Some (Some v) => v
| _ => zero
end.

(** The [for] loop, [n] rounds from index [i]. *)
Fixpoint compare_from (n i : nat) (parts1 parts2 : list (option V)) : Z :=
match n with
| O => 0
| S n' =>
    let part1 := part parts1 i in
    let part2 := part parts2 i in
    if ltb part2 part1 then 1
    else if ltb part1 part2 then -1
    else compare_from n' (S i) parts1 parts2
end.

Definition compareVersions (v1 v2 : string) : exn + Z :=
if negb (JS.truthy v1) || negb (JS.truthy v2) then
  inl ("Error: Invalid version numbers: v1=" +:+ v1 +:+ ", v2=" +:+ v2)
else
  let parts1 := map Number (JSText.split "." v1) in
  let parts2 := map Number (JSText.split "." v2) in
  inr (compare_from (Nat.max (length parts1) (length parts2)) 0 parts1 parts2).
End Compare.

End UpdateChecker.

(** ** The vocabulary of the reports *)

(** A [merged] record is marked merged only with both refs. *)
Definition merged_record_sound (res : Merged.MergeCheckResult) : Prop :=
  Merged.isMerged res = true ->
  Merged.branchExists res = true /\ Merged.masterExists res = true.

(** An [uptodate] record is never both up to date and behind, and either
    mark needs both refs. *)
Definition uptodate_record_sound (res : Uptodate.MasterMergeCheckResult) : Prop :=
  Uptodate.isUpToDate res && Uptodate.hasMasterChanges res = false
  /\ (Uptodate.isUpToDate res || Uptodate.hasMasterChanges res = true ->
      Uptodate.branchExists res && Uptodate.masterExists res = true).

(** [sep] does not occur in [s]. *)
Fixpoint free_of (sep : ascii) (s : string) : Prop :=
  match s with
  | EmptyString => True
  | String c s' => c <> sep /\ free_of sep s'
  end.

(** An entry that comes back as it was written. *)
Definition plain_entry (e : string) : Prop :=
  e <> "" /\ JS.trim e = e /\ JSText.startsWith "#" e = false
  /\ JSText.includes (String JSText.newline EmptyString) e = false.

(** [Number] on texts of decimal digits. *)
Definition number_of_digits (s : string) : option Z := JS.digits 10 s 0 false.

(** Wave sizes that are no number, and zero. *)
Definition no_number : Options := {| fetch := false; parallel := "many" |}.

(** ** Proof automation for the jobs *)

(** A job is explored by unfolding the monad and then splitting on the
    outcome of each command, in the order the job runs them. *)
Ltac unfold_job :=
  cbv [Merged.processProject Merged.inspect Uptodate.processProject Uptodate.inspect
       execSync set_result set_actualBranchRef set_actualMasterRef
       bind ret try_catch modify gets when run_git throw
       after_fetch fetch_error fetch_commands verifies resolve resolution_commands
       commit_of ancestor satisfied resolution_error recorded_error counted].

Ltac simpl_job := cbn -[String.append JS.trim JS.parseInt JS.before_space JS.truthy].

Ltac step_job :=
  match goal with
  | |- context [git_fetch ?r] =>
      let o := fresh "fetched" in
      let r' := fresh "r" in
      let E := fresh "Efetch" in
      destruct (git_fetch r) as [o r'] eqn:E; destruct o
  | |- context [git_read ?c ?r] =>
      let E := fresh "Eread" in
      destruct (git_read c r) eqn:E
  | |- context [if JS.truthy ?x then _ else _] =>
      let E := fresh "Etruthy" in
      destruct (JS.truthy x) eqn:E
  end; simpl_job.

Ltac run_job options :=
  destruct options as [[|] ?]; unfold_job; simpl_job; repeat step_job.

(** The same exploration when hypotheses speak of the outcomes too: each
    split is carried into them. *)
Ltac unfold_job_in_all :=
  cbv [Merged.processProject Merged.inspect Uptodate.processProject Uptodate.inspect
       execSync set_result set_actualBranchRef set_actualMasterRef
       bind ret try_catch modify gets when run_git throw
       after_fetch fetch_error fetch_commands verifies resolve resolution_commands
       commit_of ancestor satisfied resolution_error recorded_error counted] in *.

Ltac simpl_job_in_all :=
  cbn -[String.append JS.trim JS.parseInt JS.before_space JS.truthy] in *.

Ltac rewrite_others E t :=
  repeat match goal with
         | Hyp : context [t] |- _ =>
             tryif constr_eq Hyp E then fail else rewrite E in Hyp
         end.

Ltac step_job_in_all :=
  match goal with
  | |- context [git_fetch ?r] =>
      let o := fresh "fetched" in
      let r' := fresh "r" in
      let E := fresh "Efetch" in
      destruct (git_fetch r) as [o r'] eqn:E; rewrite_others E (git_fetch r); destruct o
  | |- context [git_read ?c ?r] =>
      let E := fresh "Eread" in
      destruct (git_read c r) eqn:E; rewrite_others E (git_read c r)
  | |- context [if JS.truthy ?x then _ else _] =>
      let E := fresh "Etruthy" in
      destruct (JS.truthy x) eqn:E
  end; simpl_job_in_all.

Ltac run_job_in_all options :=
  destruct options as [[|] ?]; unfold_job_in_all; simpl_job_in_all;
  repeat step_job_in_all.

(** A command is none of the finitely many that ran. *)
Ltac not_executed := rewrite list_elem_of_In; simpl; intuition discriminate.

(** ** Facts on the JavaScript functions *)

Section JSFacts.
Open Scope Z_scope.

Lemma digit_nonneg r c d : JS.digit r c = Some d -> 0 <= d.
Proof.
  unfold JS.digit.
  repeat match goal with
         | |- context [if ?b then _ else _] => destruct b eqn:?
         end; intros [= <-] || discriminate; lia.
Qed.

Lemma digits_nonneg r s : forall acc seen z,
  0 <= r -> 0 <= acc -> JS.digits r s acc seen = Some z -> 0 <= z.
Proof.
  induction s as [|c s IH]; intros acc seen z Hr Hacc; simpl.
  - destruct seen; intros [= <-] || discriminate; lia.
  - destruct (JS.digit r c) as [d|] eqn:Hd.
    + apply IH; [lia|]. apply digit_nonneg in Hd. nia.
    + destruct seen; intros [= <-] || discriminate; lia.
Qed.

Lemma trimStart_head s :
  match JS.trimStart s with
  | String c _ => JS.is_white c = false
  | EmptyString => True
  end.
Proof.
  induction s as [|c s IH]; simpl; [exact I|].
  destruct (JS.is_white c) eqn:Hc; [exact IH|exact Hc].
Qed.

Lemma trimEnd_cons c s :
  JS.is_white c = false -> JS.trimEnd (String c s) = String c (JS.trimEnd s).
Proof. simpl. intros ->. destruct (JS.trimEnd s); reflexivity. Qed.

Lemma trimStart_cons c s :
  JS.is_white c = false -> JS.trimStart (String c s) = String c s.
Proof. simpl. intros ->. reflexivity. Qed.

Lemma unsigned_trim s : JS.unsigned (JS.trim s) = JS.unsigned s.
Proof.
  unfold JS.unsigned, JS.trim.
  pose proof (trimStart_head s) as Hh.
  destruct (JS.trimStart s) as [|c t]; [reflexivity|].
  rewrite trimEnd_cons by exact Hh. rewrite trimStart_cons by exact Hh.
  reflexivity.
Qed.

Lemma parseInt_unsigned_nonneg s z :
  JS.unsigned s = true -> JS.parseInt s = Some z -> 0 <= z.
Proof.
  unfold JS.unsigned, JS.parseInt.
  destruct (JS.trimStart s) as [|c t] eqn:Hs.
  - simpl. discriminate.
  - intros Hu.
    assert (Hsign : exists t', (match String c t with
                                | String "-" t0 => (-1, t0)
                                | String "+" t0 => (1, t0)
                                | _ => (1, String c t)
                                end) = (1, t')).
    { destruct c as [[] [] [] [] [] [] [] []]; try discriminate Hu; eauto. }
    destruct Hsign as [t' ->].
    match goal with
    | |- context [let '(r, s3) := ?m in _] => destruct m as [rdx s3] eqn:Hr
    end.
    assert (0 <= rdx).
    { repeat match type of Hr with
             | context [match ?x with _ => _ end] => destruct x
             end; injection Hr as <- _; lia. }
    destruct (JS.digits rdx s3 0 false) as [v|] eqn:Hd; [|discriminate].
    intros [= <-]. apply digits_nonneg in Hd; lia.
Qed.

Lemma or_zero_unsigned_nonneg s :
  JS.unsigned s = true -> 0 <= JS.or_zero (JS.parseInt (JS.trim s)).
Proof.
  intros Hu. destruct (JS.parseInt (JS.trim s)) as [z|] eqn:Hp; simpl; [|lia].
  apply (parseInt_unsigned_nonneg (JS.trim s)); [|exact Hp].
  rewrite unsigned_trim. exact Hu.
Qed.
End JSFacts.

(** ** Properties of a job *)

Section ResolutionProperties.
Context {repo : Type} `{Git repo}.
Implicit Types (r : repo) (options : Options).
Implicit Types (projectName targetDir branchName baseBranch : string).

(** C3. The verdict of a job is the ancestry relation between the commits
    of the two resolved names: [isMerged] holds exactly when the commit of
    the branch is an ancestor of the commit of the base, [isUpToDate]
    exactly when the commit of the base is an ancestor of the commit of
    the branch. *)
Theorem verdict_is_ancestry projectName targetDir branchName baseBranch options r :
  (exists res,
      (Merged.processProject projectName targetDir branchName baseBranch options r).1
      = inr res
      /\ Merged.isMerged res
         = satisfied BranchIntoBase (after_fetch options r) branchName baseBranch)
  /\ (exists res,
      (Uptodate.processProject projectName targetDir branchName baseBranch options r).1
      = inr res
      /\ Uptodate.isUpToDate res
         = satisfied BaseIntoBranch (after_fetch options r) branchName baseBranch).
Proof.
  split.
  - run_job options; eexists; (split; [reflexivity|]); simpl_job; try reflexivity.
  - run_job options; eexists; (split; [reflexivity|]); simpl_job; try reflexivity.
Qed.

(** C4. A name is resolved by verifying it as a local reference first and
    as [origin/<name>] only when that failed.  When both fail the ref
    does not exist, no commit hash is stored for it and the resolution
    records no error ([error] holds what the fetch left); when one
    succeeds, the form that verified is the resolved name. *)
Theorem resolution_local_then_remote projectName targetDir branchName baseBranch options r :
  let r' := after_fetch options r in
  (exists res f,
      Merged.processProject projectName targetDir branchName baseBranch options r
      = (inr res, f)
      /\ resolve r' baseBranch
         = (if Merged.masterExists res then Some (actualMasterRef f) else None)
      /\ resolve r' branchName
         = (if Merged.branchExists res then Some (actualBranchRef f) else None)
      /\ (exists rest,
             executed f
             = (fetch_commands options ++ resolution_commands r' baseBranch
                ++ resolution_commands r' branchName ++ rest)%list
             /\ forallb (fun c => negb (is_verify c)) rest = true)
      /\ (resolve r' baseBranch = None \/ resolve r' branchName = None ->
          Merged.error res = fetch_error options r))
  /\ (exists res f,
      Uptodate.processProject projectName targetDir branchName baseBranch options r
      = (inr res, f)
      /\ resolve r' baseBranch
         = (if Uptodate.masterExists res then Some (actualMasterRef f) else None)
      /\ resolve r' branchName
         = (if Uptodate.branchExists res then Some (actualBranchRef f) else None)
      /\ (exists rest,
             executed f
             = (fetch_commands options ++ resolution_commands r' baseBranch
                ++ resolution_commands r' branchName ++ rest)%list
             /\ forallb (fun c => negb (is_verify c)) rest = true)
      /\ (resolve r' baseBranch = None \/ resolve r' branchName = None ->
          Uptodate.error res = fetch_error options r
          /\ Uptodate.lastMasterCommit res = None
          /\ Uptodate.lastBranchCommit res = None)).
Proof.
  intros r'; subst r'; split.
  - run_job options; do 2 eexists; (split; [reflexivity|]); simpl_job;
      (split; [reflexivity|]); (split; [reflexivity|]);
      (split; [eexists; split; reflexivity|]);
      intros [?|?]; try discriminate; reflexivity.
  - run_job options; do 2 eexists; (split; [reflexivity|]); simpl_job;
      (split; [reflexivity|]); (split; [reflexivity|]);
      (split; [eexists; split; reflexivity|]);
      intros [?|?]; try discriminate; repeat split; reflexivity.
Qed.

(** C10. With the fetch switched off ([--no-fetch]) no fetch is run and
    the result still says [fetchSuccess = true], the value it has after
    a fetch that ran and succeeded. *)
Theorem skipped_fetch_reports_success projectName targetDir branchName baseBranch p r :
  let skipped := {| fetch := false; parallel := p |} in
  let fetching := {| fetch := true; parallel := p |} in
  (exists res f,
      Merged.processProject projectName targetDir branchName baseBranch skipped r
      = (inr res, f)
      /\ Merged.fetchSuccess res = true
      /\ GitFetch ∉ executed f)
  /\ (exists res f,
      Uptodate.processProject projectName targetDir branchName baseBranch skipped r
      = (inr res, f)
      /\ Uptodate.fetchSuccess res = true
      /\ GitFetch ∉ executed f)
  /\ (exists res,
      (Merged.processProject projectName targetDir branchName baseBranch fetching r).1
      = inr res
      /\ Merged.fetchSuccess res = succeeded (git_fetch r).1)
  /\ (exists res,
      (Uptodate.processProject projectName targetDir branchName baseBranch fetching r).1
      = inr res
      /\ Uptodate.fetchSuccess res = succeeded (git_fetch r).1).
Proof.
  intros skipped fetching; subst skipped fetching.
  split; [|split; [|split]].
  - unfold_job; simpl_job; repeat step_job; do 2 eexists;
      (split; [reflexivity|split; [reflexivity|]]);
      rewrite list_elem_of_In; simpl; intuition discriminate.
  - unfold_job; simpl_job; repeat step_job; do 2 eexists;
      (split; [reflexivity|split; [reflexivity|]]);
      rewrite list_elem_of_In; simpl; intuition discriminate.
  - unfold_job; simpl_job; repeat step_job; eexists; split; reflexivity.
  - unfold_job; simpl_job; repeat step_job; eexists; split; reflexivity.
Qed.
End ResolutionProperties.

Section ErrorProperties.
Context {repo : Type} `{Git repo}.
Implicit Types (r : repo) (options : Options).
Implicit Types (projectName targetDir branchName baseBranch : string).

(** C2 (amended). When the branch or the base does not exist the verdict
    is negative, no command of the ancestry computation is run, and
    [error] holds what the fetch left: nothing when the fetch was skipped
    or succeeded, the fetch failure when it failed. *)
Theorem missing_ref_short_circuit projectName targetDir branchName baseBranch options r :
  (exists res f,
      Merged.processProject projectName targetDir branchName baseBranch options r
      = (inr res, f)
      /\ (Merged.branchExists res = false \/ Merged.masterExists res = false ->
          Merged.isMerged res = false
          /\ forallb (fun c => negb (is_ancestry c)) (executed f) = true
          /\ Merged.error res = fetch_error options r))
  /\ (exists res f,
      Uptodate.processProject projectName targetDir branchName baseBranch options r
      = (inr res, f)
      /\ (Uptodate.branchExists res = false \/ Uptodate.masterExists res = false ->
          Uptodate.isUpToDate res = false
          /\ Uptodate.hasMasterChanges res = false
          /\ forallb (fun c => negb (is_ancestry c)) (executed f) = true
          /\ Uptodate.error res = fetch_error options r)).
Proof.
  split.
  - run_job options; do 2 eexists; (split; [reflexivity|]); simpl_job;
      intros [?|?]; try discriminate; repeat split; reflexivity.
  - run_job options; do 2 eexists; (split; [reflexivity|]); simpl_job;
      intros [?|?]; try discriminate; repeat split; reflexivity.
Qed.

(** Every job returns a record, named after its project, whose [error] is
    the failure of the commit resolution, else that of the fetch. *)
Lemma merged_job_total projectName targetDir branchName baseBranch options r :
  exists res f,
    Merged.processProject projectName targetDir branchName baseBranch options r
    = (inr res, f)
    /\ Merged.name res = projectName
    /\ Merged.error res = recorded_error BranchIntoBase options r branchName baseBranch.
Proof.
  run_job options; do 2 eexists; (split; [reflexivity|]); simpl_job;
    split; reflexivity.
Qed.

Lemma uptodate_job_total projectName targetDir branchName baseBranch options r :
  exists res f,
    Uptodate.processProject projectName targetDir branchName baseBranch options r
    = (inr res, f)
    /\ Uptodate.name res = projectName
    /\ Uptodate.error res = recorded_error BaseIntoBranch options r branchName baseBranch.
Proof.
  run_job options; do 2 eexists; (split; [reflexivity|]); simpl_job;
    split; reflexivity.
Qed.

(** C9. When [git rev-list --count] prints no minus sign, [behindCommits]
    is not negative; it is 0 when the branch is up to date, when a ref is
    missing, when the commit resolution failed, when the count command
    failed and when its output is not a number. *)
Theorem drift_count_invariant projectName targetDir branchName baseBranch options r :
  let r' := after_fetch options r in
  (forall since until stdout,
      git_read (GitRevListCount since until) r' = Ok stdout ->
      JS.unsigned stdout = true) ->
  exists res,
    (Uptodate.processProject projectName targetDir branchName baseBranch options r).1
    = inr res
    /\ (0 <= Uptodate.behindCommits res)%Z
    /\ (Uptodate.isUpToDate res = true -> Uptodate.behindCommits res = 0%Z)
    /\ (Uptodate.branchExists res = false \/ Uptodate.masterExists res = false ->
        Uptodate.behindCommits res = 0%Z)
    /\ (Uptodate.error res <> fetch_error options r -> Uptodate.behindCommits res = 0%Z)
    /\ (forall e, git_read (GitRevListCount branchName baseBranch) r' = Throw e ->
        Uptodate.behindCommits res = 0%Z)
    /\ (forall stdout,
          git_read (GitRevListCount branchName baseBranch) r' = Ok stdout ->
          JS.parseInt (JS.trim stdout) = JS.NaN ->
          Uptodate.behindCommits res = 0%Z).
Proof.
  intros r' Hunsigned; subst r'; revert Hunsigned.
  run_job options; intros Hunsigned; eexists; (split; [reflexivity|]); simpl_job;
    (split; [first [ apply or_zero_unsigned_nonneg; eapply Hunsigned; eassumption
                   | lia ]|]);
    (split; [intros; first [discriminate|reflexivity]|]);
    (split; [intros [?|?]; first [discriminate|reflexivity]|]);
    (split; [intros Herr; first [reflexivity|contradiction]|]);
    (split; [intros; first [reflexivity|congruence]|]);
    intros out Hout Hnan; first [reflexivity|idtac];
    try (rewrite Hout in *; simplify_eq; rewrite Hnan; reflexivity).
Qed.
End ErrorProperties.

Section DriftProperties.
Context {repo : Type} `{Git repo}.
Implicit Types (r : repo) (options : Options).
Implicit Types (projectName targetDir branchName baseBranch : string).

(** C5 (amended). When both names resolve as local references, their
    commits resolve and the base is not an ancestor of the branch, the
    [uptodate] job runs the count and [behindCommits] is the number read
    off it; the [merged] job never runs a count. *)
Theorem drift_recorded_when_behind projectName targetDir branchName baseBranch options r :
  let r' := after_fetch options r in
  resolve r' branchName = Some branchName ->
  resolve r' baseBranch = Some baseBranch ->
  resolution_error BaseIntoBranch r' branchName baseBranch = None ->
  satisfied BaseIntoBranch r' branchName baseBranch = false ->
  (exists res f,
      Uptodate.processProject projectName targetDir branchName baseBranch options r
      = (inr res, f)
      /\ Uptodate.isUpToDate res = false
      /\ Uptodate.hasMasterChanges res = true
      /\ GitRevListCount branchName baseBranch ∈ executed f
      /\ Uptodate.behindCommits res = counted r' branchName baseBranch)
  /\ (exists res f,
      Merged.processProject projectName targetDir branchName baseBranch options r
      = (inr res, f)
      /\ forall since until, GitRevListCount since until ∉ executed f).
Proof.
  intros r' Hbranch Hbase Hcommits Hbehind; subst r'.
  split.
  - run_job_in_all options; try discriminate;
      do 2 eexists; (split; [reflexivity|]); simpl_job;
      (split; [reflexivity|]); (split; [reflexivity|]);
      (split; [rewrite list_elem_of_In; simpl; tauto|reflexivity]).
  - clear Hbranch Hbase Hcommits Hbehind.
    run_job options; do 2 eexists; (split; [reflexivity|]); simpl_job;
      intros since until; not_executed.
Qed.
End DriftProperties.

(** ** The scenarios *)

Import Scenarios.

Section ModelFacts.
Import GitModel.

Lemma decimal_unsigned n : JS.unsigned (decimal n +:+ newline) = true.
Proof.
  unfold decimal, NilZero.string_of_uint.
  destruct (Nat.to_uint n); reflexivity.
Qed.

Lemma model_counts_unsigned (r : repository) since until stdout :
  git_read (GitRevListCount since until) r = Ok stdout -> JS.unsigned stdout = true.
Proof.
  simpl. destruct (rev_parse r since), (rev_parse r until); try discriminate.
  intros [= <-]. apply decimal_unsigned.
Qed.

(** In the model the ancestry test answers by reachability in the
    commit graph. *)
Lemma model_ancestor (r : repository) a b ca cb :
  rev_parse r a = Some ca -> rev_parse r b = Some cb ->
  ancestor r a b = is_ancestor r ca cb.
Proof.
  intros Ha Hb. unfold ancestor. simpl. rewrite Ha, Hb.
  destruct (is_ancestor r ca cb); reflexivity.
Qed.
End ModelFacts.

(** C1. In repository B the branch resolves only as [origin/feature/y] and
    is three commits behind [master], yet the [uptodate] job counts with the
    requested names: the count command fails and [behindCommits] is 0. *)
Theorem remote_only_branch_loses_drift :
  resolve repoB "feature/y" = Some "origin/feature/y"
  /\ resolve repoB "master" = Some "master"
  /\ counted repoB "origin/feature/y" "master" = 3%Z
  /\ succeeded (git_read (GitRevListCount "feature/y" "master") repoB) = false
  /\ exists res f,
      Uptodate.processProject "B" "/repos" "feature/y" "master" no_fetch repoB = (inr res, f)
      /\ GitRevListCount "feature/y" "master" ∈ executed f
      /\ Uptodate.branchExists res = true
      /\ Uptodate.isUpToDate res = false
      /\ Uptodate.behindCommits res = 0%Z.
Proof.
  repeat split; try (vm_compute; reflexivity).
  do 2 eexists. split; [vm_compute; reflexivity|].
  repeat split. rewrite list_elem_of_In. simpl. tauto.
Qed.

(** C2, as stated, fails: in repository C the branch is missing and the
    fetch fails, and [error] holds the fetch failure. *)
Lemma missing_ref_after_failed_fetch :
  exists res,
    (Merged.processProject "C" "/repos" "feature/z" "master" with_fetch repoC).1 = inr res
    /\ Merged.branchExists res = false
    /\ Merged.isMerged res = false
    /\ Merged.fetchSuccess res = false
    /\ Merged.error res
       = Some ("Git fetch 失败: Error: Command failed: git fetch --all --prune").
Proof. eexists. split; [vm_compute; reflexivity|]. repeat split. Qed.

(** C5, as stated, fails for [merged]: repositories E and F are one and
    two commits apart in each direction, and their results are equal. *)
Lemma merged_result_has_no_drift :
  (Merged.processProject "E" "/repos" "feature/x" "master" no_fetch repoE).1
  = (Merged.processProject "E" "/repos" "feature/x" "master" no_fetch repoF).1
  /\ satisfied BranchIntoBase repoE "feature/x" "master" = false
  /\ satisfied BranchIntoBase repoF "feature/x" "master" = false
  /\ counted repoE "master" "feature/x" = 1%Z
  /\ counted repoF "master" "feature/x" = 2%Z
  /\ counted repoE "feature/x" "master" = 1%Z
  /\ counted repoF "feature/x" "master" = 2%Z.
Proof. repeat split; vm_compute; reflexivity. Qed.

(** In repository A both names are local and the branch is three commits
    behind: the count is run and [behindCommits] is 3. *)
Lemma drift_recorded_when_behind_witness :
  exists res f,
    Uptodate.processProject "A" "/repos" "feature/x" "master" no_fetch repoA = (inr res, f)
    /\ Uptodate.behindCommits res = 3%Z.
Proof.
  destruct (drift_recorded_when_behind "A" "/repos" "feature/x" "master" no_fetch repoA)
    as [(res & f & Hrun & _ & _ & _ & Hcount) _];
    try (vm_compute; reflexivity).
  exists res, f. split; [exact Hrun|]. rewrite Hcount. vm_compute. reflexivity.
Defined.

(** C6, as stated, fails: in repository D the call of the ancestry test
    throws, the job reports a plain negative and [error] stays empty. *)
Lemma ancestry_failure_leaves_no_error :
  exists res f,
    Merged.processProject "D" "/repos" "feature/w" "master" no_fetch repoD = (inr res, f)
    /\ GitIsAncestor "f1" "m3" ∈ executed f
    /\ git_read (GitIsAncestor "f1" "m3") repoD = Throw "Error: spawnSync /bin/sh EAGAIN"
    /\ Merged.branchExists res = true
    /\ Merged.masterExists res = true
    /\ Merged.isMerged res = false
    /\ Merged.error res = None.
Proof.
  do 2 eexists. split; [vm_compute; reflexivity|].
  repeat split. rewrite list_elem_of_In. simpl. tauto.
Qed.

(** The model of [git] prints its counts unsigned, so the invariant holds
    in repository A. *)
Lemma drift_count_invariant_witness :
  exists res,
    (Uptodate.processProject "A" "/repos" "feature/x" "master" no_fetch repoA).1 = inr res
    /\ (0 <= Uptodate.behindCommits res)%Z.
Proof.
  destruct (drift_count_invariant "A" "/repos" "feature/x" "master" no_fetch repoA)
    as (res & Hrun & Hpos & _).
  - intros since until stdout. apply model_counts_unsigned.
  - exists res. split; [exact Hrun|exact Hpos].
Defined.

(** ** Properties of the wave loop *)

Section SliceFacts.
Context {A : Type}.

Lemma slice_wave (l : list A) (z p : Z) :
  (0 <= z)%Z -> (0 < p)%Z ->
  JS.slice l (Some z) (Some (z + p)%Z) = take (Z.to_nat p) (drop (Z.to_nat z) l).
Proof.
  intros Hz Hp. unfold JS.slice, JS.toInteger, JS.or_zero.
  destruct (Z.ltb_spec z 0) as [|_]; [lia|].
  destruct (Z.ltb_spec (z + p) 0) as [|_]; [lia|].
  destruct (Z_lt_le_dec z (Z.of_nat (length l))) as [Hlt|Hge].
  - rewrite (Z.min_l z) by lia.
    destruct (Z_le_gt_dec (z + p) (Z.of_nat (length l))) as [Hin|Hout].
    + rewrite Z.min_l by lia. f_equal. lia.
    + rewrite Z.min_r by lia.
      rewrite !take_ge; [reflexivity| |]; rewrite length_drop; lia.
  - rewrite (Z.min_r z) by lia.
    rewrite !drop_ge by lia. rewrite !take_nil. reflexivity.
Qed.
End SliceFacts.

Section PromiseFacts.
Context {A : Type}.
Implicit Types (rs : list A) (order : list nat) (values : list (option A)).

Lemma settle_fulfilled rs order : forall values,
  length values = length rs ->
  (forall i v, values !! i = Some (Some v) -> rs !! i = Some v) ->
  exists values',
    Batch.settle (inr <$> rs) order values = inr values'
    /\ length values' = length rs
    /\ (forall i v, values' !! i = Some (Some v) -> rs !! i = Some v)
    /\ (forall i v, rs !! i = Some v ->
          i ∈ order \/ values !! i = Some (Some v) ->
          values' !! i = Some (Some v)).
Proof.
  induction order as [|k order IH]; intros values Hlen Hsound; simpl.
  - exists values. repeat split; auto.
    intros i v _ [Hin|Hv]; [|exact Hv]. inversion Hin.
  - rewrite list_lookup_fmap. destruct (rs !! k) as [v|] eqn:Hk; simpl.
    + destruct (IH (<[k := Some v]> values)) as (values' & Hrun & Hlen' & Hsound' & Hdone).
      * rewrite length_insert. exact Hlen.
      * intros i w. destruct (decide (i = k)) as [->|Hne].
        -- rewrite list_lookup_insert_eq by (apply lookup_lt_Some in Hk; lia).
           intros [= <-]. exact Hk.
        -- rewrite list_lookup_insert_ne by auto. apply Hsound.
      * exists values'. repeat split; auto.
        intros i w Hi Hcase. apply Hdone; [exact Hi|].
        destruct (decide (i = k)) as [->|Hne].
        -- right. rewrite list_lookup_insert_eq by (apply lookup_lt_Some in Hk; lia).
           congruence.
        -- destruct Hcase as [Hin|Hv].
           ++ left. apply elem_of_cons in Hin as [?|?]; [contradiction|assumption].
           ++ right. rewrite list_lookup_insert_ne by auto. exact Hv.
    + destruct (IH values Hlen Hsound) as (values' & Hrun & Hlen' & Hsound' & Hdone).
      exists values'. repeat split; auto.
      intros i w Hi Hcase. apply Hdone; [exact Hi|].
      destruct Hcase as [Hin|Hv]; [|right; exact Hv].
      left. apply elem_of_cons in Hin as [->|?]; [congruence|assumption].
Qed.

Lemma settle_start rs order :
  exists values',
    Batch.settle (inr <$> rs) order (replicate (length rs) None) = inr values'
    /\ length values' = length rs
    /\ (forall i v, values' !! i = Some (Some v) -> rs !! i = Some v)
    /\ (forall i v, rs !! i = Some v -> i ∈ order -> values' !! i = Some (Some v)).
Proof.
  destruct (settle_fulfilled rs order (replicate (length rs) None))
    as (values' & Hrun & Hlen & Hsound & Hdone).
  - apply length_replicate.
  - intros i v Hi. apply lookup_replicate in Hi as [? _]. discriminate.
  - exists values'. repeat split; auto.
Qed.

(** Once every promise is heard of, in whatever order, [Promise.all]
    gives the values in the order of the promises. *)
Lemma Promise_all_fulfilled rs order :
  (forall k, (k < length rs)%nat -> k ∈ order) ->
  Batch.Promise_all (inr <$> rs) order = Some (inr rs).
Proof.
  intros Hcover. unfold Batch.Promise_all. rewrite length_fmap.
  destruct (settle_start rs order) as (values' & -> & Hlen & Hsound & Hdone).
  assert (values' = Some <$> rs) as ->.
  { apply list_eq. intros i. rewrite list_lookup_fmap.
    destruct (rs !! i) as [v|] eqn:Hi; simpl.
    - apply Hdone; [exact Hi|]. apply Hcover. eapply lookup_lt_Some. exact Hi.
    - apply lookup_ge_None. apply lookup_ge_None in Hi. lia. }
  rewrite mapM_fmap_Some by reflexivity. reflexivity.
Qed.

(** Promises that are all fulfilled never make [Promise.all] reject. *)
Lemma Promise_all_no_reject rs order e :
  Batch.Promise_all (inr <$> rs) order <> Some (inl e).
Proof.
  unfold Batch.Promise_all. rewrite length_fmap.
  destruct (settle_start rs order) as (values' & -> & _).
  destruct (mapM id values'); simpl; congruence.
Qed.
End PromiseFacts.

Section ReportFacts.
Lemma progress_counts_report completed total waves :
  progress_counts (report completed total waves) = Some <$> cumulative completed waves.
Proof.
  revert completed. induction waves as [|b ws IH]; intros c; simpl; [reflexivity|].
  f_equal. apply IH.
Qed.

Lemma cumulative_bounds completed waves :
  Forall (fun c => (completed <= c)%Z) (cumulative completed waves).
Proof.
  revert completed. induction waves as [|b ws IH]; intros c; simpl; constructor.
  - lia.
  - eapply Forall_impl; [apply IH|]. simpl. intros; lia.
Qed.

Lemma cumulative_sorted completed waves :
  StronglySorted Z.le (cumulative completed waves).
Proof.
  revert completed. induction waves as [|b ws IH]; intros c; simpl; constructor.
  - apply IH.
  - apply cumulative_bounds.
Qed.

Lemma cumulative_last completed waves :
  last (cumulative completed waves)
  = match waves with
    | [] => None
    | _ => Some (completed + Z.of_nat (length (concat waves)))%Z
    end.
Proof.
  revert completed. induction waves as [|b ws IH]; intros c; [reflexivity|].
  cbn [cumulative concat]. rewrite length_app.
  destruct ws as [|b' ws'].
  - simpl. f_equal. lia.
  - change (cumulative (c + Z.of_nat (length b)) (b' :: ws'))
      with ((c + Z.of_nat (length b) + Z.of_nat (length b'))%Z
              :: cumulative (c + Z.of_nat (length b) + Z.of_nat (length b')) ws') in *.
    rewrite last_cons_cons.
    specialize (IH (c + Z.of_nat (length b))%Z).
    cbn [cumulative] in IH. rewrite IH. f_equal. lia.
Qed.
End ReportFacts.

Section LoopFacts.
Context {R repo : Type}.
Variable processProject : string -> repo -> (exn + R) * frame R repo.
Variable targetDir : string.
Variable projectDirs : list string.
Variable schedule : list string -> list nat.

Hypothesis job_total : forall projectName r, exists res, (processProject projectName r).1 = inr res.

Abbreviation launch := (Batch.launch processProject targetDir).
Abbreviation waves := (Batch.waves processProject targetDir projectDirs schedule).

Lemma launch_total batch : forall d,
  exists rs d', launch batch d = (inr <$> rs, d') /\ length rs = length batch.
Proof.
  induction batch as [|n batch IH]; intros d; simpl.
  - exists [], d. split; reflexivity.
  - destruct (job_total n (d (path_join targetDir n))) as [res Hres].
    destruct (processProject n (d (path_join targetDir n))) as [promise f].
    simpl in Hres. subst promise.
    destruct (IH (<[path_join targetDir n := cwd f]> d)) as (rs & d' & -> & Hlen).
    exists (res :: rs), d'. split; [reflexivity|]. simpl. lia.
Qed.

Lemma launch_app batch1 batch2 d :
  launch (batch1 ++ batch2) d
  = (((launch batch1 d).1 ++ (launch batch2 (launch batch1 d).2).1)%list,
     (launch batch2 (launch batch1 d).2).2).
Proof.
  revert d. induction batch1 as [|n batch1 IH]; intros d; simpl.
  - destruct (launch batch2 d); reflexivity.
  - destruct (processProject n (d (path_join targetDir n))) as [promise f].
    rewrite IH.
    destruct (launch batch1 (<[path_join targetDir n:=cwd f]> d)) as [ps d1]. simpl.
    reflexivity.
Qed.

Lemma launch_names (name : R -> string)
    (Hname : forall n r res, (processProject n r).1 = inr res -> name res = n) batch :
  forall d rs d', launch batch d = (inr <$> rs, d') -> name <$> rs = batch.
Proof.
  induction batch as [|n batch IH]; intros d rs d'; simpl.
  - intros [= Hrs _]. destruct rs; [reflexivity|discriminate].
  - pose proof (Hname n (d (path_join targetDir n))) as Hn.
    destruct (processProject n (d (path_join targetDir n))) as [promise f].
    destruct (launch batch (<[path_join targetDir n:=cwd f]> d)) as [ps d1] eqn:Hl.
    intros [= Hrs _]. destruct rs as [|res rs]; [discriminate|].
    simpl in Hrs. injection Hrs as -> ->.
    simpl. f_equal; [apply Hn; reflexivity|]. eapply IH. exact Hl.
Qed.

(** With a positive wave size the bar is drawn with counts between 0 and
    the total, and no job rejects: the action never reaches its [catch]. *)
Lemma waves_never_exit fuel : forall p z s e,
  (0 < p)%Z -> (0 <= z)%Z ->
  waves fuel (Some p) (Some z) s <> Batch.Exited e.
Proof.
  induction fuel as [|fuel IH]; intros p z s e Hp Hz; cbn [Batch.waves JS.add];
    [discriminate|].
  destruct (JS.lt (Some z) (Some (Z.of_nat (length projectDirs)))); [|discriminate].
  destruct (launch_total (JS.slice projectDirs (Some z) (Some (z + p)%Z)) (Batch.disk s))
    as (rs & d' & -> & _).
  pose proof (Promise_all_no_reject rs
                (schedule (JS.slice projectDirs (Some z) (Some (z + p)%Z)))) as Hno.
  destruct (Batch.Promise_all (inr <$> rs) _) as [[e'|batchResults]|].
  - exfalso. eapply Hno. reflexivity.
  - apply IH; lia.
  - discriminate.
Qed.

Section Positive.
Variable p : Z.
Hypothesis p_positive : (0 < p)%Z.
Hypothesis schedule_covers :
  forall batch k, (k < length batch)%nat -> k ∈ schedule batch.

Let len : Z := Z.of_nat (length projectDirs).

Lemma waves_return fuel : forall z s,
  (0 <= z)%Z ->
  (length (drop (Z.to_nat z) projectDirs) < fuel)%nat ->
  ProgressBar.total (Batch.progressBar s) = len ->
  exists rs ws bar d',
    waves fuel (Some p) (Some z) s
    = Batch.Returned (Batch.Run (Batch.results s ++ rs)%list bar d'
                                (Batch.events s ++ report z len ws)%list)
    /\ launch (drop (Z.to_nat z) projectDirs) (Batch.disk s) = (inr <$> rs, d')
    /\ concat ws = drop (Z.to_nat z) projectDirs
    /\ Forall (fun b => (0 < length b <= Z.to_nat p)%nat) ws.
Proof.
  induction fuel as [|fuel IH]; intros z s Hz Hfuel Htotal; [lia|].
  cbn [Batch.waves]. fold len. unfold JS.lt.
  destruct (Z.ltb_spec z len) as [Hlt|Hge].
  - cbn [JS.add]. rewrite slice_wave by assumption.
    set (batch := take (Z.to_nat p) (drop (Z.to_nat z) projectDirs)).
    assert (Hsplit : drop (Z.to_nat z) projectDirs
                     = (batch ++ drop (Z.to_nat (z + p)) projectDirs)%list).
    { unfold batch. rewrite <- (take_drop (Z.to_nat p) (drop (Z.to_nat z) projectDirs)) at 1.
      rewrite drop_drop. do 2 f_equal. lia. }
    assert (Hblen : length batch = Z.to_nat (Z.min p (len - z))).
    { unfold batch. rewrite length_take, length_drop. unfold len. lia. }
    destruct (launch_total batch (Batch.disk s)) as (rs1 & d1 & Hl1 & Hlen1).
    rewrite Hl1.
    rewrite Promise_all_fulfilled
      by (intros k Hk; apply schedule_covers; lia).
    match goal with
    | |- context [waves fuel (Some p) (Some (z + p)%Z) ?s1] =>
        destruct (IH (z + p)%Z s1) as (rs2 & ws2 & bar & d2 & Hrun & Hl2 & Hcat & Hws)
    end.
    + lia.
    + rewrite length_drop in *. fold len in Hfuel. unfold len in *. lia.
    + cbn. exact Htotal.
    + rewrite Hrun. cbn [Batch.results Batch.events Batch.disk] in *.
      exists (rs1 ++ rs2)%list, (batch :: ws2), bar, d2.
      split; [|split; [|split]].
      * f_equal. rewrite <- !app_assoc. f_equal. f_equal.
        cbn [report ProgressBar.update ProgressBar.current ProgressBar.total JS.min].
        rewrite Htotal.
        assert (Hdone : Z.min (Z.min (z + p) len) len
                        = (z + Z.of_nat (length batch))%Z) by lia.
        rewrite Hdone. simpl. do 2 f_equal.
        destruct (Z_le_gt_dec (z + p) len) as [Hin|Hout].
        -- f_equal. lia.
        -- assert (ws2 = []) as ->.
           { destruct ws2 as [|b ws2]; [reflexivity|].
             apply Forall_cons in Hws as [Hb _].
             assert (Hnil : drop (Z.to_nat (z + p)) projectDirs = [])
               by (apply drop_ge; unfold len in *; lia).
             rewrite Hnil in Hcat. simpl in Hcat.
             apply app_eq_nil in Hcat as [-> _]. simpl in Hb. lia. }
           reflexivity.
      * rewrite Hsplit, launch_app, Hl1. cbn [fst snd]. rewrite Hl2. cbn [fst snd].
        rewrite fmap_app. reflexivity.
      * simpl. rewrite Hcat. symmetry. exact Hsplit.
      * constructor; [|exact Hws]. rewrite Hblen. lia.
  - exists [], [], (Batch.progressBar s), (Batch.disk s).
    assert (Hnil : drop (Z.to_nat z) projectDirs = [])
      by (apply drop_ge; unfold len in *; lia).
    rewrite Hnil. simpl. rewrite !app_nil_r.
    destruct s; repeat split; constructor.
Qed.
End Positive.
End LoopFacts.

Section ActionFacts.
Context {R repo : Type}.
Variable processProject : string -> repo -> (exn + R) * frame R repo.
Variable targetDir : string.
Variable projectDirs : list string.
Variable schedule : list string -> list nat.

Hypothesis job_total : forall projectName r, exists res, (processProject projectName r).1 = inr res.

Lemma action_never_exit fuel options d e p :
  JS.parseInt (parallel options) = Some p ->
  (0 < p)%Z ->
  Batch.action processProject targetDir projectDirs schedule fuel options d
  <> Batch.Exited e.
Proof.
  intros Hparse Hp. unfold Batch.action. rewrite Hparse.
  apply waves_never_exit; [exact job_total|exact Hp|lia].
Qed.

Lemma action_return options p fuel d :
  JS.parseInt (parallel options) = Some p ->
  (0 < p)%Z ->
  (forall batch k, (k < length batch)%nat -> k ∈ schedule batch) ->
  (length projectDirs < fuel)%nat ->
  exists s ws counts,
    Batch.action processProject targetDir projectDirs schedule fuel options d
    = Batch.Returned s
    /\ inr <$> Batch.results s = (Batch.launch processProject targetDir projectDirs d).1
    /\ Batch.events s = report 0 (Z.of_nat (length projectDirs)) ws
    /\ concat ws = projectDirs
    /\ Forall (fun b => (0 < length b <= Z.to_nat p)%nat) ws
    /\ progress_counts (Batch.events s) = Some <$> counts
    /\ StronglySorted Z.le counts
    /\ last counts = match projectDirs with
                     | [] => None
                     | _ => Some (Z.of_nat (length projectDirs))
                     end.
Proof.
  intros Hp Hpos Hcover Hfuel. unfold Batch.action. rewrite Hp.
  match goal with
  | |- context [Batch.waves _ _ _ _ fuel (Some p) (Some 0%Z) ?s0] =>
      destruct (waves_return processProject targetDir projectDirs schedule job_total
                             p Hpos Hcover fuel 0%Z s0)
        as (rs & ws & bar & d' & -> & Hl & Hcat & Hws)
  end; [lia|simpl; exact Hfuel|reflexivity|].
  cbn [Batch.results Batch.events Batch.disk] in *.
  change (drop (Z.to_nat 0) projectDirs) with projectDirs in *.
  eexists _, ws, (cumulative 0 ws). split; [reflexivity|].
  cbn [Batch.results Batch.events app].
  split; [rewrite Hl; reflexivity|]. split; [reflexivity|].
  split; [exact Hcat|]. split; [exact Hws|].
  split; [apply progress_counts_report|]. split; [apply cumulative_sorted|].
  rewrite cumulative_last. rewrite <- Hcat.
  destruct ws as [|b ws']; [reflexivity|].
  apply Forall_cons in Hws as [Hb _].
  destruct (concat (b :: ws')) eqn:Hc.
  - simpl in Hc. apply app_eq_nil in Hc as [-> _]. simpl in Hb. lia.
  - reflexivity.
Qed.
End ActionFacts.

Section BatchProperties.
Context {repo : Type} `{Git repo}.
Implicit Types (r : repo) (options : Options) (d : string -> repo).
Implicit Types (projectName targetDir branchName baseBranch : string).
Implicit Types (projectDirs : list string) (schedule : list string -> list nat).

Lemma merged_job_returns targetDir branchName baseBranch options projectName r :
  exists res,
    (Merged.processProject projectName targetDir branchName baseBranch options r).1
    = inr res.
Proof.
  destruct (merged_job_total projectName targetDir branchName baseBranch options r)
    as (res & f & -> & _). exists res. reflexivity.
Qed.

Lemma uptodate_job_returns targetDir branchName baseBranch options projectName r :
  exists res,
    (Uptodate.processProject projectName targetDir branchName baseBranch options r).1
    = inr res.
Proof.
  destruct (uptodate_job_total projectName targetDir branchName baseBranch options r)
    as (res & f & -> & _). exists res. reflexivity.
Qed.

Lemma merged_job_name targetDir branchName baseBranch options projectName r res :
  (Merged.processProject projectName targetDir branchName baseBranch options r).1
  = inr res ->
  Merged.name res = projectName.
Proof.
  destruct (merged_job_total projectName targetDir branchName baseBranch options r)
    as (res' & f & -> & Hname & _). intros [= <-]. exact Hname.
Qed.

Lemma uptodate_job_name targetDir branchName baseBranch options projectName r res :
  (Uptodate.processProject projectName targetDir branchName baseBranch options r).1
  = inr res ->
  Uptodate.name res = projectName.
Proof.
  destruct (uptodate_job_total projectName targetDir branchName baseBranch options r)
    as (res' & f & -> & Hname & _). intros [= <-]. exact Hname.
Qed.

(** C6 (amended). Every error a command throws is caught inside the job:
    the job always returns a record named after its project, and, the wave
    size being positive, the action never reaches its [catch], whatever
    the other jobs and waves do.  [error] is filled in when the commit
    resolution fails, else when the fetch fails, and in no other case. *)
Theorem job_errors_are_contained projectName targetDir branchName baseBranch options r :
  (exists res f,
      Merged.processProject projectName targetDir branchName baseBranch options r
      = (inr res, f)
      /\ Merged.name res = projectName
      /\ Merged.error res
         = recorded_error BranchIntoBase options r branchName baseBranch)
  /\ (exists res f,
      Uptodate.processProject projectName targetDir branchName baseBranch options r
      = (inr res, f)
      /\ Uptodate.name res = projectName
      /\ Uptodate.error res
         = recorded_error BaseIntoBranch options r branchName baseBranch)
  /\ (forall fuel projectDirs schedule d e p,
        JS.parseInt (parallel options) = Some p ->
        (0 < p)%Z ->
        Merged.mergedCommand fuel branchName targetDir projectDirs schedule baseBranch
          options d <> Batch.Exited e)
  /\ (forall fuel projectDirs schedule d e p,
        JS.parseInt (parallel options) = Some p ->
        (0 < p)%Z ->
        Uptodate.uptodateCommand fuel branchName targetDir projectDirs schedule baseBranch
          options d <> Batch.Exited e).
Proof.
  split; [apply merged_job_total|]. split; [apply uptodate_job_total|]. split.
  - intros fuel projectDirs schedule d e p Hparse Hp.
    apply (action_never_exit _ _ _ _
             (merged_job_returns targetDir branchName baseBranch options)
             fuel options d e p Hparse Hp).
  - intros fuel projectDirs schedule d e p Hparse Hp.
    apply (action_never_exit _ _ _ _
             (uptodate_job_returns targetDir branchName baseBranch options)
             fuel options d e p Hparse Hp).
Qed.

(** C7. With a positive wave size, and every promise of a wave heard of
    in whatever order, the action returns the records in the order of
    discovery: they are the records of the jobs run one after the other
    over the directories found. *)
Theorem results_in_discovery_order branchName targetDir projectDirs schedule baseBranch
    options d p fuel :
  JS.parseInt (parallel options) = Some p ->
  (0 < p)%Z ->
  (forall batch k, (k < length batch)%nat -> k ∈ schedule batch) ->
  (length projectDirs < fuel)%nat ->
  (exists s,
      Merged.mergedCommand fuel branchName targetDir projectDirs schedule baseBranch
        options d = Batch.Returned s
      /\ Merged.name <$> Batch.results s = projectDirs
      /\ inr <$> Batch.results s
         = (Batch.launch
              (fun projectName =>
                 Merged.processProject projectName targetDir branchName baseBranch options)
              targetDir projectDirs d).1)
  /\ (exists s,
      Uptodate.uptodateCommand fuel branchName targetDir projectDirs schedule baseBranch
        options d = Batch.Returned s
      /\ Uptodate.name <$> Batch.results s = projectDirs
      /\ inr <$> Batch.results s
         = (Batch.launch
              (fun projectName =>
                 Uptodate.processProject projectName targetDir branchName baseBranch options)
              targetDir projectDirs d).1).
Proof.
  intros Hp Hpos Hcover Hfuel. split.
  - destruct (action_return
                (fun projectName =>
                   Merged.processProject projectName targetDir branchName baseBranch options)
                targetDir projectDirs schedule
                (merged_job_returns targetDir branchName baseBranch options)
                options p fuel d Hp Hpos Hcover Hfuel)
      as (s & ws & counts & Hrun & Hres & _).
    exists s. split; [exact Hrun|]. split; [|exact Hres].
    eapply (launch_names _ targetDir Merged.name
              (merged_job_name targetDir branchName baseBranch options)).
    rewrite Hres. apply surjective_pairing.
  - destruct (action_return
                (fun projectName =>
                   Uptodate.processProject projectName targetDir branchName baseBranch options)
                targetDir projectDirs schedule
                (uptodate_job_returns targetDir branchName baseBranch options)
                options p fuel d Hp Hpos Hcover Hfuel)
      as (s & ws & counts & Hrun & Hres & _).
    exists s. split; [exact Hrun|]. split; [|exact Hres].
    eapply (launch_names _ targetDir Uptodate.name
              (uptodate_job_name targetDir branchName baseBranch options)).
    rewrite Hres. apply surjective_pairing.
Qed.

(** C8. With a positive wave size, the events of a run are, wave after
    wave, the start of the wave and then one drawing of the bar with the
    number of jobs done so far and the total; the counts drawn never
    decrease and the last one is the number of directories found. *)
Theorem progress_after_each_wave branchName targetDir projectDirs schedule baseBranch
    options d p fuel :
  JS.parseInt (parallel options) = Some p ->
  (0 < p)%Z ->
  (forall batch k, (k < length batch)%nat -> k ∈ schedule batch) ->
  (length projectDirs < fuel)%nat ->
  let total := Z.of_nat (length projectDirs) in
  let final := match projectDirs with [] => None | _ => Some total end in
  (exists s ws counts,
      Merged.mergedCommand fuel branchName targetDir projectDirs schedule baseBranch
        options d = Batch.Returned s
      /\ Batch.events s = report 0 total ws
      /\ concat ws = projectDirs
      /\ Forall (fun b => (0 < length b <= Z.to_nat p)%nat) ws
      /\ progress_counts (Batch.events s) = Some <$> counts
      /\ StronglySorted Z.le counts
      /\ last counts = final)
  /\ (exists s ws counts,
      Uptodate.uptodateCommand fuel branchName targetDir projectDirs schedule baseBranch
        options d = Batch.Returned s
      /\ Batch.events s = report 0 total ws
      /\ concat ws = projectDirs
      /\ Forall (fun b => (0 < length b <= Z.to_nat p)%nat) ws
      /\ progress_counts (Batch.events s) = Some <$> counts
      /\ StronglySorted Z.le counts
      /\ last counts = final).
Proof.
  intros Hp Hpos Hcover Hfuel total final. subst total final. split.
  - destruct (action_return
                (fun projectName =>
                   Merged.processProject projectName targetDir branchName baseBranch options)
                targetDir projectDirs schedule
                (merged_job_returns targetDir branchName baseBranch options)
                options p fuel d Hp Hpos Hcover Hfuel)
      as (s & ws & counts & Hrun & _ & Hrest).
    exists s, ws, counts. split; [exact Hrun|exact Hrest].
  - destruct (action_return
                (fun projectName =>
                   Uptodate.processProject projectName targetDir branchName baseBranch options)
                targetDir projectDirs schedule
                (uptodate_job_returns targetDir branchName baseBranch options)
                options p fuel d Hp Hpos Hcover Hfuel)
      as (s & ws & counts & Hrun & _ & Hrest).
    exists s, ws, counts. split; [exact Hrun|exact Hrest].
Qed.
End BatchProperties.

Lemma backwards_covers (batch : list string) (k : nat) :
  (k < length batch)%nat -> k ∈ backwards batch.
Proof. intros Hk. unfold backwards. rewrite elem_of_reverse, elem_of_seq. lia. Qed.

(** Three directories in waves of two, the promises heard of last first:
    the records come back in the order of the directories. *)
Lemma results_in_discovery_order_witness :
  exists s,
    Merged.mergedCommand 4 "feature/x" "/repos" ["A"; "B"; "C"] backwards "master"
      two_at_a_time fleet = Batch.Returned s
    /\ Merged.name <$> Batch.results s = ["A"; "B"; "C"].
Proof.
  destruct (results_in_discovery_order "feature/x" "/repos" ["A"; "B"; "C"] backwards
              "master" two_at_a_time fleet 2%Z 4)
    as [(s & Hrun & Hnames & _) _].
  - vm_compute. reflexivity.
  - lia.
  - apply backwards_covers.
  - simpl. lia.
  - exists s. split; [exact Hrun|exact Hnames].
Defined.

(** The same run draws the bar after each of its two waves, last with 3. *)
Lemma progress_after_each_wave_witness :
  exists s counts,
    Uptodate.uptodateCommand 4 "feature/x" "/repos" ["A"; "B"; "C"] backwards "master"
      two_at_a_time fleet = Batch.Returned s
    /\ progress_counts (Batch.events s) = Some <$> counts
    /\ last counts = Some 3%Z.
Proof.
  destruct (progress_after_each_wave "feature/x" "/repos" ["A"; "B"; "C"] backwards
              "master" two_at_a_time fleet 2%Z 4)
    as [_ (s & ws & counts & Hrun & _ & _ & _ & Hcounts & _ & Hlast)].
  - vm_compute. reflexivity.
  - lia.
  - apply backwards_covers.
  - simpl. lia.
  - exists s, counts. split; [exact Hrun|]. split; [exact Hcounts|exact Hlast].
Defined.

(** A fleet of repositories D, in each of which the ancestry test throws:
    every job still returns its record, and with waves of two the run does
    not end in the [catch] of the action. *)
Lemma job_errors_are_contained_witness :
  (exists res f,
      Merged.processProject "D" "/repos" "feature/w" "master" two_at_a_time repoD
      = (inr res, f)
      /\ Merged.name res = "D")
  /\ Merged.mergedCommand 4 "feature/w" "/repos" ["A"; "B"; "C"] backwards "master"
       two_at_a_time (fun _ => repoD)
     <> Batch.Exited "Error: spawnSync /bin/sh EAGAIN".
Proof.
  destruct (job_errors_are_contained "D" "/repos" "feature/w" "master" two_at_a_time repoD)
    as ((res & f & Hrun & Hname & _) & _ & Hmerged & _).
  split.
  - exists res, f. split; [exact Hrun|exact Hname].
  - apply (Hmerged 4 ["A"; "B"; "C"] backwards (fun _ => repoD) _ 2%Z).
    + vm_compute. reflexivity.
    + lia.
Defined.

(** ** Further properties of the jobs *)

Section WordFacts.
Lemma before_space_idem s : JS.before_space (JS.before_space s) = JS.before_space s.
Proof.
  induction s as [|c s IH]; simpl; [reflexivity|].
  destruct (Ascii.eqb c " ") eqn:Hc; simpl; [reflexivity|].
  rewrite Hc, IH. reflexivity.
Qed.
End WordFacts.

Section MoreJobProperties.
Context {repo : Type} `{Git repo}.
Implicit Types (r : repo) (options : Options).
Implicit Types (projectName targetDir branchName baseBranch : string).

(** X1. The merge commit is looked up only for a merged branch, and its
    date only for a merge commit that was found: [mergeDate] is never set
    without [mergeCommit], nor [mergeCommit] without [isMerged].  A merge
    commit, when set, is a non-empty word with no space in it, read off the
    log of the requested names. *)
Theorem merge_commit_only_when_merged projectName targetDir branchName baseBranch options r :
  exists res f,
    Merged.processProject projectName targetDir branchName baseBranch options r
    = (inr res, f)
    /\ (Merged.mergeDate res <> None -> Merged.mergeCommit res <> None)
    /\ (Merged.mergeCommit res <> None -> Merged.isMerged res = true)
    /\ (forall commit, Merged.mergeCommit res = Some commit ->
          JS.truthy commit = true
          /\ JS.before_space commit = commit
          /\ (exists stdout,
                git_read (GitLogMerges branchName baseBranch) (after_fetch options r)
                = Ok stdout
                /\ commit = JS.before_space (JS.trim stdout))
          /\ GitLogDate commit ∈ executed f).
Proof.
  run_job options; do 2 eexists; (split; [reflexivity|]); simpl_job;
    (split; [intros Hd; first [congruence|exact Hd]|]);
    (split; [intros Hc; first [reflexivity|congruence]|]);
    intros commit Hcommit; try discriminate;
    injection Hcommit as <-;
    (split; [first [assumption|congruence]|]); (split; [apply before_space_idem|]);
    (split; [eexists; split; reflexivity|]);
    first [congruence|rewrite list_elem_of_In; simpl; tauto].
Qed.

(** X2. The fields of an [uptodate] record hang together: [isUpToDate]
    and [hasMasterChanges] are never both set and either one needs both
    refs and both commits; a non-zero [behindCommits] needs
    [hasMasterChanges]; a date is stored only with its commit, and the
    commit of the branch only with that of the base. *)
Theorem uptodate_fields_consistent projectName targetDir branchName baseBranch options r :
  exists res f,
    Uptodate.processProject projectName targetDir branchName baseBranch options r
    = (inr res, f)
    /\ Uptodate.isUpToDate res && Uptodate.hasMasterChanges res = false
    /\ (Uptodate.isUpToDate res || Uptodate.hasMasterChanges res = true ->
        Uptodate.branchExists res = true /\ Uptodate.masterExists res = true
        /\ Uptodate.lastMasterCommit res <> None
        /\ Uptodate.lastBranchCommit res <> None)
    /\ (Uptodate.behindCommits res <> 0%Z -> Uptodate.hasMasterChanges res = true)
    /\ (Uptodate.lastMasterDate res <> None -> Uptodate.lastMasterCommit res <> None)
    /\ (Uptodate.lastBranchDate res <> None -> Uptodate.lastBranchCommit res <> None)
    /\ (Uptodate.lastBranchCommit res <> None -> Uptodate.lastMasterCommit res <> None)
    /\ (Uptodate.lastBranchCommit res <> None ->
        Uptodate.hasMasterChanges res = negb (Uptodate.isUpToDate res)).
Proof.
  run_job options; do 2 eexists; (split; [reflexivity|]); simpl_job;
    (split; [reflexivity|]);
    (split; [intros Hv; first [discriminate Hv|repeat split; congruence]|]);
    (split; [intros Hb; first [reflexivity|congruence]|]);
    (split; [intros Hd; congruence|]);
    (split; [intros Hd; congruence|]);
    (split; [intros Hd; congruence|]);
    intros Hc; first [reflexivity|congruence].
Qed.

(** X3. A job runs at most ten ([merged]) or eleven ([uptodate]) commands,
    and [git fetch] only as the first of them. *)
Theorem job_commands_bounded projectName targetDir branchName baseBranch options r :
  (exists res f rest,
      Merged.processProject projectName targetDir branchName baseBranch options r
      = (inr res, f)
      /\ (length (executed f) <= 10)%nat
      /\ executed f = (fetch_commands options ++ rest)%list
      /\ GitFetch ∉ rest)
  /\ (exists res f rest,
      Uptodate.processProject projectName targetDir branchName baseBranch options r
      = (inr res, f)
      /\ (length (executed f) <= 11)%nat
      /\ executed f = (fetch_commands options ++ rest)%list
      /\ GitFetch ∉ rest).
Proof.
  split.
  - run_job options; do 3 eexists; (split; [reflexivity|]); simpl_job;
      (split; [simpl; lia|]); (split; [reflexivity|]); not_executed.
  - run_job options; do 3 eexists; (split; [reflexivity|]); simpl_job;
      (split; [simpl; lia|]); (split; [reflexivity|]); not_executed.
Qed.
End MoreJobProperties.

(** ** The loop on a wave size that is no number, or zero *)

Section LoopEdges.
Context {R repo : Type}.
Variable processProject : string -> repo -> (exn + R) * frame R repo.
Variable targetDir : string.
Variable projectDirs : list string.
Variable schedule : list string -> list nat.

Hypothesis job_total : forall projectName r, exists res, (processProject projectName r).1 = inr res.
Hypothesis some_project : projectDirs <> [].

Lemma Promise_all_nil {A : Type} (order : list nat) :
  Batch.Promise_all (@nil (exn + A)) order = Some (inr []).
Proof. apply (Promise_all_fulfilled (@nil A) order). simpl. lia. Qed.

(** A wave size that is not a number: one empty wave, then the end. *)
Lemma action_not_a_number options fuel d :
  JS.parseInt (parallel options) = JS.NaN ->
  (2 <= fuel)%nat ->
  Batch.action processProject targetDir projectDirs schedule fuel options d
  = Batch.Returned
      {| Batch.results := [];
         Batch.progressBar :=
           {| ProgressBar.current := JS.NaN;
              ProgressBar.total := Z.of_nat (length projectDirs) |};
         Batch.disk := d;
         Batch.events :=
           [Batch.Launched [];
            Batch.Progress JS.NaN (Z.of_nat (length projectDirs))] |}.
Proof.
  intros Hp Hfuel. unfold Batch.action. rewrite Hp.
  destruct fuel as [|[|fuel]]; [lia|lia|].
  cbn [Batch.waves]. unfold JS.lt at 1.
  destruct (Z.ltb_spec 0 (Z.of_nat (length projectDirs))) as [_|Hlen].
  - unfold JS.NaN in *. change (JS.add (Some 0%Z) None) with (@None Z).
    assert (Hslice : JS.slice projectDirs (Some 0%Z) None = []).
    { unfold JS.slice, JS.toInteger, JS.or_zero. cbn [Z.ltb Z.compare].
      rewrite Z.min_l by lia. rewrite Z.sub_diag. reflexivity. }
    rewrite Hslice. cbn [Batch.launch]. rewrite Promise_all_nil. reflexivity.
  - destruct projectDirs; [congruence|simpl in Hlen; lia].
Qed.


End LoopEdges.

Section BatchEdges.
Context {repo : Type} `{Git repo}.
Implicit Types (options : Options) (d : string -> repo).
Implicit Types (targetDir branchName baseBranch : string).
Implicit Types (projectDirs : list string) (schedule : list string -> list nat).

(** X4. When the text after [-p] is not a number and some directory was
    found, the loop runs a single empty wave: the action returns no record
    at all, draws the bar once with [NaN], and touches no repository. *)
Theorem wave_size_not_a_number branchName targetDir projectDirs schedule baseBranch
    options d fuel :
  JS.parseInt (parallel options) = JS.NaN ->
  projectDirs <> [] ->
  (2 <= fuel)%nat ->
  (exists s,
      Merged.mergedCommand fuel branchName targetDir projectDirs schedule baseBranch
        options d = Batch.Returned s
      /\ Batch.results s = []
      /\ Batch.events s
         = [Batch.Launched []; Batch.Progress JS.NaN (Z.of_nat (length projectDirs))]
      /\ Batch.disk s = d)
  /\ (exists s,
      Uptodate.uptodateCommand fuel branchName targetDir projectDirs schedule baseBranch
        options d = Batch.Returned s
      /\ Batch.results s = []
      /\ Batch.events s
         = [Batch.Launched []; Batch.Progress JS.NaN (Z.of_nat (length projectDirs))]
      /\ Batch.disk s = d).
Proof.
  intros Hp Hdirs Hfuel. split.
  - eexists. split.
    + unfold Merged.mergedCommand. apply action_not_a_number; assumption.
    + repeat split.
  - eexists. split.
    + unfold Uptodate.uptodateCommand. apply action_not_a_number; assumption.
    + repeat split.
Qed.

End BatchEdges.

Lemma wave_size_not_a_number_witness :
  exists s,
    Merged.mergedCommand 2 "feature/x" "/repos" ["A"; "B"; "C"] backwards "master"
      no_number fleet = Batch.Returned s
    /\ Batch.results s = [].
Proof.
  destruct (wave_size_not_a_number "feature/x" "/repos" ["A"; "B"; "C"] backwards
              "master" no_number fleet 2)
    as [(s & Hrun & Hres & _) _].
  - vm_compute. reflexivity.
  - discriminate.
  - lia.
  - exists s. split; [exact Hrun|exact Hres].
Defined.


(** ** What a run returns *)

Section PromiseValues.
Context {A : Type}.

Lemma Promise_all_values (rs xs : list A) order :
  Batch.Promise_all (inr <$> rs) order = Some (inr xs) -> xs = rs.
Proof.
  unfold Batch.Promise_all. rewrite length_fmap.
  destruct (settle_start rs order) as (values' & -> & Hlen & Hsound & _).
  destruct (mapM id values') as [ys|] eqn:Hm; [|discriminate].
  intros [= <-]. apply mapM_Some_1 in Hm.
  apply list_eq. intros i.
  destruct (ys !! i) as [y|] eqn:Hy.
  - destruct (Forall2_lookup_r _ _ _ _ _ Hm Hy) as (v & Hv & Hid).
    simpl in Hid. subst v. symmetry. apply Hsound. exact Hv.
  - symmetry. apply lookup_ge_None. apply lookup_ge_None in Hy.
    apply Forall2_length in Hm. lia.
Qed.
End PromiseValues.

Section RunResults.
Context {R repo : Type}.
Variable processProject : string -> repo -> (exn + R) * frame R repo.
Variable targetDir : string.
Variable projectDirs : list string.
Variable schedule : list string -> list nat.
Variable P : R -> Prop.

Hypothesis job_total : forall projectName r, exists res, (processProject projectName r).1 = inr res.
Hypothesis job_sound : forall projectName r res,
    (processProject projectName r).1 = inr res -> P res.

Lemma launch_sound batch : forall d rs d',
  Batch.launch processProject targetDir batch d = (inr <$> rs, d') -> Forall P rs.
Proof.
  induction batch as [|n batch IH]; intros d rs d'; simpl.
  - intros [= Hrs _]. destruct rs; [constructor|discriminate].
  - pose proof (job_sound n (d (path_join targetDir n))) as Hn.
    destruct (processProject n (d (path_join targetDir n))) as [promise f].
    destruct (Batch.launch processProject targetDir batch _) as [ps d1] eqn:Hl.
    intros [= Hrs _]. destruct rs as [|res rs]; [discriminate|].
    simpl in Hrs. injection Hrs as -> ->.
    constructor; [apply Hn; reflexivity|]. eapply IH. exact Hl.
Qed.

(** Every record a run returns is the record of a job. *)
Lemma waves_sound fuel : forall parallel i s s',
  Batch.waves processProject targetDir projectDirs schedule fuel parallel i s
  = Batch.Returned s' ->
  Forall P (Batch.results s) -> Forall P (Batch.results s').
Proof.
  induction fuel as [|fuel IH]; intros parallel i s s'; simpl; [discriminate|].
  destruct (JS.lt i (Some (Z.of_nat (length projectDirs)))).
  - destruct (launch_total processProject targetDir job_total
                (JS.slice projectDirs i (JS.add i parallel)) (Batch.disk s))
      as (rs & d' & Hl & _).
    rewrite Hl.
    destruct (Batch.Promise_all (inr <$> rs) _) as [[e|xs]|] eqn:Hall; try discriminate.
    apply Promise_all_values in Hall. subst xs.
    intros Hrun Hs. apply (IH _ _ _ _ Hrun). simpl.
    apply Forall_app. split; [exact Hs|]. eapply launch_sound. exact Hl.
  - intros [= <-]. auto.
Qed.

Lemma action_sound fuel options d s :
  Batch.action processProject targetDir projectDirs schedule fuel options d
  = Batch.Returned s ->
  Forall P (Batch.results s).
Proof.
  unfold Batch.action. intros Hrun. apply (waves_sound _ _ _ _ _ Hrun). constructor.
Qed.
End RunResults.

(** ** Properties of the reports *)

Section TruncateFacts.
Lemma length_append (s t : string) :
  String.length (s +:+ t) = (String.length s + String.length t)%nat.
Proof. induction s as [|c s IH]; simpl; [reflexivity|]. rewrite IH. reflexivity. Qed.

Lemma length_substring_0 n s :
  String.length (String.substring 0 n s) = Nat.min n (String.length s).
Proof.
  revert s. induction n as [|n IH]; intros [|c s]; simpl; try reflexivity.
  rewrite IH. reflexivity.
Qed.

Lemma truncate_length limit keep s :
  (keep + 3 <= limit)%nat -> (String.length (JSText.truncate limit keep s) <= limit)%nat.
Proof.
  intros Hk. unfold JSText.truncate.
  destruct (Nat.ltb_spec limit (String.length s)) as [Hlong|Hshort]; [|exact Hshort].
  rewrite length_append, length_substring_0. simpl. lia.
Qed.

Lemma truncate_short limit keep s :
  (String.length s <= limit)%nat -> JSText.truncate limit keep s = s.
Proof.
  intros Hs. unfold JSText.truncate.
  destruct (Nat.ltb_spec limit (String.length s)); [lia|reflexivity].
Qed.
End TruncateFacts.

Section ReportProperties.
Context {repo : Type} `{Git repo}.
Implicit Types (options : Options) (d : string -> repo).
Implicit Types (targetDir branchName baseBranch : string).
Implicit Types (projectDirs : list string) (schedule : list string -> list nat).

Lemma merged_job_sound targetDir branchName baseBranch options projectName (r : repo) res :
  (Merged.processProject projectName targetDir branchName baseBranch options r).1
  = inr res ->
  merged_record_sound res.
Proof.
  unfold merged_record_sound. revert res.
  run_job options; intros res [= <-]; simpl_job; intros Hm;
    first [discriminate Hm|split; reflexivity].
Qed.

Lemma uptodate_job_sound targetDir branchName baseBranch options projectName (r : repo) res :
  (Uptodate.processProject projectName targetDir branchName baseBranch options r).1
  = inr res ->
  uptodate_record_sound res.
Proof.
  unfold uptodate_record_sound. revert res.
  run_job options; intros res [= <-]; simpl_job;
    (split; [reflexivity|]); intros Hv; first [discriminate Hv|reflexivity].
Qed.

Lemma merged_rows_permutation (rs : list Merged.MergeCheckResult) :
  Forall merged_record_sound rs ->
  MergedReport.validResults rs
  ≡ₚ List.filter (fun r => Merged.branchExists r && Merged.masterExists r) rs.
Proof.
  unfold MergedReport.validResults, MergedReport.mergedResults,
    MergedReport.notMergedResults.
  induction 1 as [|r rs Hr _ IH]; simpl; [reflexivity|].
  unfold merged_record_sound in Hr.
  destruct (Merged.isMerged r) eqn:Hm.
  - destruct Hr as [-> ->]; [reflexivity|]. simpl. constructor. exact IH.
  - destruct (Merged.branchExists r), (Merged.masterExists r); simpl;
      try exact IH.
    rewrite <- Permutation_middle. constructor. exact IH.
Qed.

Lemma merged_counts (rs : list Merged.MergeCheckResult) :
  Forall merged_record_sound rs ->
  (length rs
   + length (List.filter
               (fun r => negb (Merged.branchExists r) && negb (Merged.masterExists r)) rs)
   = length (MergedReport.mergedResults rs) + length (MergedReport.notMergedResults rs)
     + length (MergedReport.missingBranchResults rs)
     + length (MergedReport.missingMasterResults rs))%nat.
Proof.
  unfold MergedReport.mergedResults, MergedReport.notMergedResults,
    MergedReport.missingBranchResults, MergedReport.missingMasterResults.
  induction 1 as [|r rs Hr _ IH]; simpl; [reflexivity|].
  unfold merged_record_sound in Hr.
  destruct (Merged.isMerged r) eqn:Hm.
  - destruct Hr as [-> ->]; [reflexivity|]. simpl. lia.
  - destruct (Merged.branchExists r), (Merged.masterExists r); simpl; lia.
Qed.

(** X6. In the summary of a [merged] run the counts add up: the merged,
    the not merged, the projects without the branch and those without the
    base make up the total, a project that lacks both being counted twice.
    The rows of the table are the projects that have both refs, each
    once. *)
Theorem merged_summary_adds_up fuel branchName targetDir projectDirs schedule baseBranch
    options d s :
  Merged.mergedCommand fuel branchName targetDir projectDirs schedule baseBranch
    options d = Batch.Returned s ->
  let results := Batch.results s in
  let report := MergedReport.summary results in
  let neither :=
    List.filter (fun r => negb (Merged.branchExists r) && negb (Merged.masterExists r))
      results in
  (MergedReport.total report + length neither
   = MergedReport.merged report + MergedReport.notMerged report
     + MergedReport.missingBranch report + MergedReport.missingMaster report)%nat
  /\ MergedReport.validResults results
     ≡ₚ List.filter (fun r => Merged.branchExists r && Merged.masterExists r) results.
Proof.
  intros Hrun results report neither. subst results report neither.
  assert (Hsound : Forall merged_record_sound (Batch.results s)).
  { eapply (action_sound _ _ _ _ merged_record_sound
              (merged_job_returns targetDir branchName baseBranch options)
              (merged_job_sound targetDir branchName baseBranch options)).
    exact Hrun. }
  split; [apply merged_counts|apply merged_rows_permutation]; exact Hsound.
Qed.

Lemma uptodate_counts (rs : list Uptodate.MasterMergeCheckResult) :
  Forall uptodate_record_sound rs ->
  (length (UptodateReport.upToDateResults rs) + length (UptodateReport.behindResults rs)
   <= length (UptodateReport.validResults rs))%nat
  /\ (forall r, In r (UptodateReport.upToDateResults rs) ->
                ~ In r (UptodateReport.behindResults rs))
  /\ (forall r, In r (UptodateReport.upToDateResults rs)
                \/ In r (UptodateReport.behindResults rs) ->
                In r (UptodateReport.validResults rs)).
Proof.
  unfold UptodateReport.upToDateResults, UptodateReport.behindResults,
    UptodateReport.validResults.
  intros Hs. split; [|split].
  - induction Hs as [|r rs [Hex Hrefs] _ IH]; simpl; [lia|].
    destruct (Uptodate.isUpToDate r), (Uptodate.hasMasterChanges r);
      simpl in *; try discriminate;
      try (rewrite Hrefs by reflexivity);
      repeat match goal with
             | |- context [if ?b then _ else _] => destruct b
             end; simpl; lia.
  - intros r Hup Hbehind.
    apply filter_In in Hup as [Hin Hup]. apply filter_In in Hbehind as [_ Hb].
    rewrite Forall_forall in Hs. rewrite <- list_elem_of_In in Hin.
    destruct (Hs r Hin) as [Hex _].
    rewrite Hup in Hex. simpl in Hex. rewrite Hex in Hb. discriminate.
  - intros r Hr. rewrite Forall_forall in Hs.
    assert (Hin : In r rs) by (destruct Hr as [Hr|Hr]; apply filter_In in Hr; tauto).
    apply filter_In. split; [exact Hin|].
    rewrite <- list_elem_of_In in Hin. destruct (Hs r Hin) as [_ Hrefs].
    apply Hrefs. destruct Hr as [Hr|Hr]; apply filter_In in Hr as [_ Hr].
    + rewrite Hr. reflexivity.
    + apply andb_true_iff in Hr as [-> _]. apply orb_true_r.
Qed.

(** X7. In the report of an [uptodate] run no project is listed both as
    up to date and as behind, both lists are drawn from the projects that
    have both refs, and their sizes together never exceed the number of
    rows of the table. *)
Theorem uptodate_lists_disjoint fuel branchName targetDir projectDirs schedule baseBranch
    options d s :
  Uptodate.uptodateCommand fuel branchName targetDir projectDirs schedule baseBranch
    options d = Batch.Returned s ->
  let results := Batch.results s in
  let report := UptodateReport.summary results in
  (UptodateReport.upToDate report + UptodateReport.behind report
   <= length (UptodateReport.validResults results))%nat
  /\ (forall r, In r (UptodateReport.upToDateResults results) ->
                ~ In r (UptodateReport.behindResults results))
  /\ (forall r, In r (UptodateReport.upToDateResults results)
                \/ In r (UptodateReport.behindResults results) ->
                In r (UptodateReport.validResults results)).
Proof.
  intros Hrun results report. subst results report.
  apply uptodate_counts.
  eapply (action_sound _ _ _ _ uptodate_record_sound
            (uptodate_job_returns targetDir branchName baseBranch options)
            (uptodate_job_sound targetDir branchName baseBranch options)).
  exact Hrun.
Qed.
End ReportProperties.

(** X8. A name longer than 27 characters is cut to 24 and three dots, a
    branch longer than 17 to 14 and three dots: the two cells never exceed
    27 and 17 characters, and a text within its limit is shown as it is. *)
Theorem table_cells_fit (m : Merged.MergeCheckResult) (u : Uptodate.MasterMergeCheckResult)
    (branchName : string) :
  (String.length (MergedReport.truncatedName m) <= 27)%nat
  /\ (String.length (UptodateReport.truncatedName u) <= 27)%nat
  /\ (String.length (MergedReport.truncatedBranch branchName) <= 17)%nat
  /\ (String.length (UptodateReport.truncatedBranch branchName) <= 17)%nat
  /\ ((String.length (Merged.name m) <= 27)%nat ->
      MergedReport.truncatedName m = Merged.name m)
  /\ ((String.length (Uptodate.name u) <= 27)%nat ->
      UptodateReport.truncatedName u = Uptodate.name u)
  /\ ((String.length branchName <= 17)%nat ->
      MergedReport.truncatedBranch branchName = branchName
      /\ UptodateReport.truncatedBranch branchName = branchName).
Proof.
  do 4 (split; [apply truncate_length; lia|]).
  split; [apply truncate_short|]. split; [apply truncate_short|].
  intros Hs. split; apply truncate_short; exact Hs.
Qed.

(** ** Properties of the [branch] command *)

Section ArrayFacts.
Implicit Types (x : string) (arr : list string).

Lemma indexOf_Some x arr i : JSText.indexOf x arr = Some i -> arr !! i = Some x.
Proof.
  revert i. induction arr as [|y arr IH]; intros i; simpl; [discriminate|].
  destruct (String.eqb_spec y x) as [->|Hne].
  - intros [= <-]. reflexivity.
  - destruct (JSText.indexOf x arr) as [j|]; simpl; [|discriminate].
    intros [= <-]. simpl. apply IH. reflexivity.
Qed.

Lemma indexOf_elem x arr : x ∈ arr -> exists i, JSText.indexOf x arr = Some i.
Proof.
  induction arr as [|y arr IH]; intros Hin; [inversion Hin|]. simpl.
  destruct (String.eqb_spec y x) as [->|Hne]; [eauto|].
  apply elem_of_cons in Hin as [->|Hin]; [congruence|].
  destruct (IH Hin) as [i ->]. simpl. eauto.
Qed.

Lemma NoDup_indexed arr : NoDup (imap pair arr).
Proof.
  apply NoDup_alt. intros i j [k x]. rewrite !list_lookup_imap.
  destruct (arr !! i); simpl; [|discriminate]. intros [= <- <-].
  destruct (arr !! j); simpl; [|discriminate]. intros [= <- _]. reflexivity.
Qed.

Lemma elem_of_first_occurrences x arr : x ∈ JSText.first_occurrences arr <-> x ∈ arr.
Proof.
  unfold JSText.first_occurrences. rewrite list_elem_of_fmap. split.
  - intros ([i y] & -> & Hin). apply list_elem_of_In, filter_In in Hin as [Hin _].
    apply list_elem_of_In, elem_of_lookup_imap in Hin as (j & z & [= -> ->] & Hz).
    simpl. eapply list_elem_of_lookup_2. exact Hz.
  - intros Hin. destruct (indexOf_elem x arr Hin) as [i Hi].
    exists (i, x). split; [reflexivity|].
    apply list_elem_of_In, filter_In. split.
    + apply list_elem_of_In, elem_of_lookup_imap. exists i, x.
      split; [reflexivity|]. apply indexOf_Some. exact Hi.
    + simpl. apply bool_decide_eq_true. exact Hi.
Qed.

Lemma NoDup_first_occurrences arr : NoDup (JSText.first_occurrences arr).
Proof.
  unfold JSText.first_occurrences. apply NoDup_fmap_2_strong.
  - intros [i x] [j y] Hi Hj. simpl. intros <-.
    apply list_elem_of_In, filter_In in Hi as [_ Hi].
    apply list_elem_of_In, filter_In in Hj as [_ Hj].
    apply bool_decide_eq_true in Hi. apply bool_decide_eq_true in Hj.
    simpl in *. congruence.
  - apply NoDup_ListNoDup, List.NoDup_filter, NoDup_ListNoDup, NoDup_indexed.
Qed.
End ArrayFacts.

Section LineFacts.
Lemma substring_0_length s : String.substring 0 (String.length s) s = s.
Proof. induction s as [|c s IH]; simpl; [reflexivity|]. rewrite IH. reflexivity. Qed.

Lemma strip_prefix_other p s :
  JSText.startsWith p s = false -> JSText.strip_prefix p s = s.
Proof. unfold JSText.strip_prefix. intros ->. reflexivity. Qed.

Lemma trimEnd_space_cons s :
  s <> "" -> JS.trimEnd s = s -> JS.trimEnd (String " " s) = String " " s.
Proof.
  intros Hs He. simpl. rewrite He. destruct s; [congruence|reflexivity].
Qed.
End LineFacts.

Section BranchLines.
Variable b : string.
Hypothesis b_not_empty : b <> "".
Hypothesis b_trimmed_start : JS.trimStart b = b.
Hypothesis b_trimmed_end : JS.trimEnd b = b.
Hypothesis b_no_star : JSText.startsWith "*" b = false.
Hypothesis b_no_origin : JSText.startsWith "remotes/origin/" b = false.

Lemma strip_star_other : Branch.strip_star b = b.
Proof.
  unfold Branch.strip_star. destruct b as [|c s]; [reflexivity|].
  destruct (Ascii.eqb_spec c "*") as [->|Hne].
  - simpl in b_no_star. destruct s; discriminate.
  - destruct c as [[] [] [] [] [] [] [] []]; try reflexivity. congruence.
Qed.

Lemma line_plain : Branch.branch_of_line ("  " +:+ b) = b.
Proof.
  unfold Branch.branch_of_line, JS.trim.
  change (JS.trimStart ("  " +:+ b)) with (JS.trimStart b).
  rewrite b_trimmed_start, b_trimmed_end, strip_star_other.
  apply strip_prefix_other. exact b_no_origin.
Qed.

Lemma line_current : Branch.branch_of_line ("* " +:+ b) = b.
Proof.
  unfold Branch.branch_of_line, JS.trim.
  change (JS.trimStart ("* " +:+ b)) with (String "*" (String " " b)).
  rewrite trimEnd_cons by reflexivity.
  rewrite trimEnd_space_cons by assumption.
  simpl Branch.strip_star. rewrite b_trimmed_start.
  apply strip_prefix_other. exact b_no_origin.
Qed.

Lemma line_remote : Branch.branch_of_line ("  remotes/origin/" +:+ b) = b.
Proof.
  unfold Branch.branch_of_line, JS.trim.
  change (JS.trimStart ("  remotes/origin/" +:+ b)) with ("remotes/origin/" +:+ b).
  change ("remotes/origin/" +:+ b)
    with (String "r" (String "e" (String "m" (String "o" (String "t" (String "e"
           (String "s" (String "/" (String "o" (String "r" (String "i" (String "g"
           (String "i" (String "n" (String "/" b))))))))))))))).
  rewrite !trimEnd_cons by reflexivity. rewrite b_trimmed_end.
  unfold Branch.strip_star, JSText.strip_prefix, JSText.startsWith.
  cbn [String.prefix Ascii.ascii_dec ascii_rec ascii_rect bool_dec bool_rec bool_rect
       sumbool_rec sumbool_rect].
  simpl. destruct b; simpl; rewrite ?substring_0_length; reflexivity.
Qed.
End BranchLines.

(** X9. The branches read off the output of [git branch] hold no name
    twice; a name is among them exactly when it is not empty, has no
    [HEAD ->] in it, and is what some line of the output gives once trimmed
    and stripped of the [*] mark and of the [remotes/origin/] prefix. *)
Theorem parsed_branches_clean (branchOutput : string) :
  let found := Branch.parse_branches branchOutput in
  NoDup found
  /\ forall b,
      b ∈ found
      <-> (b <> "" /\ JSText.includes "HEAD ->" b = false)
          /\ exists line,
               line ∈ JSText.split JSText.newline branchOutput
               /\ Branch.branch_of_line line = b.
Proof.
  intros found. subst found. unfold Branch.parse_branches.
  split; [apply NoDup_first_occurrences|].
  intros b. rewrite elem_of_first_occurrences, list_elem_of_In, filter_In.
  rewrite in_map_iff. unfold Branch.is_branch. rewrite andb_true_iff, negb_true_iff.
  assert (Ht : JS.truthy b = true <-> b <> "") by (destruct b; simpl; split; congruence).
  rewrite Ht. split.
  - intros [(line & Hline & Hin) Hb]. split; [exact Hb|].
    exists line. rewrite list_elem_of_In. auto.
  - intros [Hb (line & Hin & Hline)]. split; [|exact Hb].
    exists line. rewrite <- list_elem_of_In. auto.
Qed.

(** X10. A branch name with no white space at its ends, not opening with
    [*] nor with [remotes/origin/], is read the same off its three lines:
    the plain one, the one of the current branch and the one of its
    remote-tracking branch. *)
Theorem branch_lines_agree (b : string) :
  b <> "" ->
  JS.trimStart b = b ->
  JS.trimEnd b = b ->
  JSText.startsWith "*" b = false ->
  JSText.startsWith "remotes/origin/" b = false ->
  Branch.branch_of_line ("  " +:+ b) = b
  /\ Branch.branch_of_line ("* " +:+ b) = b
  /\ Branch.branch_of_line ("  remotes/origin/" +:+ b) = b.
Proof.
  intros Hne Hs He Hstar Horigin. split; [|split].
  - apply line_plain; assumption.
  - apply line_current; assumption.
  - apply line_remote; assumption.
Qed.

Lemma branch_lines_agree_witness :
  Branch.branch_of_line "  feature/x" = "feature/x"
  /\ Branch.branch_of_line "* feature/x" = "feature/x"
  /\ Branch.branch_of_line "  remotes/origin/feature/x" = "feature/x".
Proof.
  apply (branch_lines_agree "feature/x"); [discriminate|reflexivity..].
Defined.

Section BranchJob.
Context {repo : Type} `{Branch.Git repo}.

(** X11. The [branch] job always returns its record.  The fetch counts
    as a success only when it ran and succeeded (a skipped fetch leaves
    [fetchSuccess] false), and its failure is a warning on the console, not
    an error.  [error] is the failure of the branch listing and of nothing
    else; it comes with no branch and no match, so a failed project is
    never a matched one. *)
Theorem branch_job_outcomes projectName targetDir branchName
    (options : Branch.Options) (r : repo) :
  let r' := if Branch.fetch options then (Branch.git_fetch r).2 else r in
  let fetched := Branch.fetch options && succeeded (Branch.git_fetch r).1 in
  exists res f,
    Branch.processProject projectName targetDir branchName options r = (inr res, f)
    /\ Branch.name res = projectName
    /\ Branch.fetchSuccess res = fetched
    /\ length (Branch.console f)
       = (if Branch.fetch options && negb fetched then 1 else 0)%nat
    /\ Branch.executed f
       = ((if Branch.fetch options then [Branch.GitFetchAll] else [])
          ++ [Branch.GitBranch (Branch.remote options)])%list
    /\ match Branch.git_branch (Branch.remote options) r' with
       | Ok stdout =>
           Branch.error res = None
           /\ Branch.branches res = Branch.parse_branches stdout
           /\ (Branch.hasTargetBranch res = true <-> branchName ∈ Branch.branches res)
       | Throw e =>
           Branch.error res = Some e
           /\ Branch.branches res = []
           /\ Branch.hasTargetBranch res = false
       end
    /\ (Branch.hasTargetBranch res = true -> Branch.has_error res = false).
Proof.
  intros r' fetched. subst r' fetched.
  destruct options as [[|] rem par];
    cbv [Branch.processProject Branch.execSync Branch.console_log Branch.set_result
         bind ret try_catch modify gets when throw]; cbn -[String.append Branch.parse_branches].
  - destruct (Branch.git_fetch r) as [[out|e] r0]; cbn -[String.append Branch.parse_branches];
      destruct (Branch.git_branch rem r0) as [out'|e'];
      cbn -[String.append Branch.parse_branches];
      do 2 eexists; (split; [reflexivity|]); cbn -[String.append Branch.parse_branches];
      repeat split; try discriminate;
      rewrite ?existsb_exists;
      try (intros (x & Hin & Heq); apply String.eqb_eq in Heq; subst x;
           apply list_elem_of_In; exact Hin);
      try (intros Hin; exists branchName; split;
           [apply list_elem_of_In; exact Hin|apply String.eqb_refl]).
  - destruct (Branch.git_branch rem r) as [out'|e'];
      cbn -[String.append Branch.parse_branches];
      do 2 eexists; (split; [reflexivity|]); cbn -[String.append Branch.parse_branches];
      repeat split; try discriminate;
      rewrite ?existsb_exists;
      try (intros (x & Hin & Heq); apply String.eqb_eq in Heq; subst x;
           apply list_elem_of_In; exact Hin);
      try (intros Hin; exists branchName; split;
           [apply list_elem_of_In; exact Hin|apply String.eqb_refl]).
Qed.
End BranchJob.

(** ** Properties of the progress bar *)

Section BarFacts.
Import ProgressBar ProgressOps.

Lemma ticks_current (total0 : Z) (increments : list Z) : forall bar done,
  current bar = Some (Z.min done total0) ->
  total bar = total0 ->
  Forall (fun i => (0 <= i)%Z) increments ->
  let bar' := foldl (fun b i => tick b (Some i)) bar increments in
  current bar' = Some (Z.min (done + foldr Z.add 0%Z increments) total0)
  /\ total bar' = total0.
Proof.
  induction increments as [|i incs IH]; intros bar done Hc Ht Hpos; simpl.
  - rewrite Z.add_0_r. auto.
  - apply Forall_cons in Hpos as [Hi Hpos].
    destruct (IH (tick bar (Some i)) (done + i)%Z) as [Hc' Ht']; try assumption.
    + unfold tick, update. simpl. rewrite Hc, Ht. simpl. f_equal. lia.
    + simpl in *. rewrite Hc'. split; [f_equal; lia|exact Ht'].
Qed.

(** X12. Ticks that are not negative add up until the total is reached:
    after them the bar stands at the smaller of their sum and the total,
    and it is complete exactly when the sum has reached the total. *)
Theorem ticks_add_up (total0 : Z) (increments : list Z) :
  (0 <= total0)%Z ->
  Forall (fun i => (0 <= i)%Z) increments ->
  let bar := foldl (fun b i => tick b (Some i)) (createProgressBar total0) increments in
  let sum := foldr Z.add 0%Z increments in
  current bar = Some (Z.min sum total0)
  /\ total bar = total0
  /\ (isComplete bar = true <-> (total0 <= sum)%Z)
  /\ isComplete (complete bar) = true.
Proof.
  intros Htotal Hpos bar sum. subst bar sum.
  destruct (ticks_current total0 increments (createProgressBar total0) 0%Z)
    as [Hc Ht]; try assumption; try reflexivity.
  - simpl. f_equal. lia.
  - simpl in *. rewrite Hc, Ht. split; [reflexivity|]. split; [reflexivity|].
    unfold isComplete, complete, update. simpl. rewrite Hc, Ht. simpl.
    split; [rewrite Z.leb_le; lia|]. rewrite Z.leb_le. lia.
Qed.

Lemma ticks_add_up_witness :
  isComplete (foldl (fun b i => tick b (Some i)) (createProgressBar 5) [2; 2; 2]%Z) = true.
Proof.
  destruct (ticks_add_up 5 [2; 2; 2]%Z) as (_ & _ & Hdone & _).
  - lia.
  - repeat constructor; lia.
  - apply Hdone. simpl. lia.
Defined.
End BarFacts.

(** ** Properties of the blacklist file *)

Section TextFacts.
Lemma includes_free_of sep s :
  JSText.includes (String sep EmptyString) s = false -> free_of sep s.
Proof.
  induction s as [|c s IH]; simpl; [auto|].
  destruct (ascii_dec sep c) as [->|Hne].
  - destruct s; discriminate.
  - simpl. intros Hs. split; [congruence|]. apply IH.
    destruct s; exact Hs.
Qed.

Lemma split_free sep s : free_of sep s -> JSText.split sep s = [s].
Proof.
  induction s as [|c s IH]; simpl; [reflexivity|]. intros [Hc Hs].
  destruct (Ascii.eqb_spec c sep); [contradiction|]. rewrite IH by exact Hs. reflexivity.
Qed.

Lemma split_app_sep sep s t :
  free_of sep s -> JSText.split sep (s +:+ String sep t) = s :: JSText.split sep t.
Proof.
  induction s as [|c s IH]; simpl.
  - intros _. rewrite Ascii.eqb_refl. reflexivity.
  - intros [Hc Hs]. destruct (Ascii.eqb_spec c sep); [contradiction|].
    rewrite IH by exact Hs. reflexivity.
Qed.

Lemma split_join sep (parts : list string) :
  parts <> [] -> Forall (free_of sep) parts ->
  JSText.split sep (JSText.join sep parts) = parts.
Proof.
  induction parts as [|x parts IH]; [congruence|]. intros _ Hfree.
  apply Forall_cons in Hfree as [Hx Hparts].
  destruct parts as [|y parts].
  - simpl. apply split_free. exact Hx.
  - change (JSText.join sep (x :: y :: parts))
      with (x +:+ String sep (JSText.join sep (y :: parts))).
    rewrite split_app_sep by exact Hx. f_equal. apply IH; [discriminate|exact Hparts].
Qed.

Lemma trimEnd_idem s : JS.trimEnd (JS.trimEnd s) = JS.trimEnd s.
Proof.
  induction s as [|c s IH]; simpl; [reflexivity|].
  destruct (JS.trimEnd s) as [|c' u] eqn:Hu.
  - destruct (JS.is_white c) eqn:Hc; simpl; [reflexivity|]. rewrite Hc. reflexivity.
  - change (JS.trimEnd (String c (String c' u)))
      with (match JS.trimEnd (String c' u) with
            | EmptyString => if JS.is_white c then EmptyString else String c EmptyString
            | t => String c t
            end).
    rewrite IH. reflexivity.
Qed.

Lemma trim_idem s : JS.trim (JS.trim s) = JS.trim s.
Proof.
  unfold JS.trim. pose proof (trimStart_head s) as Hh.
  destruct (JS.trimStart s) as [|c t]; [reflexivity|].
  rewrite trimEnd_cons by exact Hh. rewrite trimStart_cons by exact Hh.
  rewrite <- trimEnd_cons by exact Hh. apply trimEnd_idem.
Qed.
End TextFacts.

Section BlacklistProperties.
Implicit Types (fs : gmap string Config.node) (homedir : string).

Lemma entries_kept (blacklist : list string) :
  Forall plain_entry blacklist ->
  List.filter Config.is_entry (map JS.trim blacklist) = blacklist.
Proof.
  induction 1 as [|e l (Hne & Ht & Hc & _) _ IH]; simpl; [reflexivity|].
  rewrite Ht. unfold Config.is_entry at 1. rewrite Hc.
  destruct e; [congruence|]. simpl. rewrite IH. reflexivity.
Qed.

(** X13. What [saveBlacklist] writes, [loadBlacklist] reads back: when
    the save succeeds and every entry is non-empty, trimmed, on one line
    and not a comment, loading gives the saved list, the header lines
    being dropped. *)
Theorem blacklist_round_trip homedir (blacklist : list string) fs fs' :
  Config.saveBlacklist homedir blacklist fs = inr fs' ->
  Forall plain_entry blacklist ->
  Config.loadBlacklist homedir fs' = blacklist.
Proof.
  unfold Config.saveBlacklist, Config.loadBlacklist, Config.writeFileSync,
    Config.readFileSync, Config.existsSync.
  set (p := Config.getBlacklistPath homedir).
  intros Hsave Hplain.
  assert (Hfs : fs' = <[p := Config.File
                               (JSText.join JSText.newline (Config.header ++ blacklist))]> fs).
  { destruct (fs !! p) as [[c|]|]; simplify_eq; reflexivity. }
  subst fs'. rewrite lookup_insert_eq.
  rewrite bool_decide_eq_true_2 by eauto. simpl negb. cbv iota.
  rewrite split_join.
  - rewrite map_app, List.filter_app. rewrite (entries_kept blacklist) by exact Hplain.
    reflexivity.
  - discriminate.
  - apply Forall_app. split.
    + unfold Config.header.
      repeat (apply Forall_cons; split; [apply includes_free_of; reflexivity|]).
      constructor.
    + eapply Forall_impl; [exact Hplain|]. intros e (_ & _ & _ & He).
      apply includes_free_of. exact He.
Qed.

(** X14. Whatever the file holds, the entries [loadBlacklist] returns
    are trimmed, not empty and not comments; a missing or unreadable file
    gives the empty list. *)
Theorem loaded_entries_clean homedir fs :
  Forall (fun e => e <> "" /\ JS.trim e = e /\ JSText.startsWith "#" e = false)
         (Config.loadBlacklist homedir fs)
  /\ ((forall content,
         fs !! Config.getBlacklistPath homedir <> Some (Config.File content)) ->
      Config.loadBlacklist homedir fs = []).
Proof.
  unfold Config.loadBlacklist, Config.readFileSync, Config.existsSync.
  destruct (fs !! Config.getBlacklistPath homedir) as [[content|]|] eqn:Hp.
  - rewrite bool_decide_eq_true_2 by eauto. simpl negb. cbv iota.
    split; [|intros Hno; exfalso; eapply Hno; reflexivity].
    apply Forall_forall. intros e He.
    apply list_elem_of_In, filter_In in He as [Hin Hentry].
    apply in_map_iff in Hin as (line & <- & _).
    unfold Config.is_entry in Hentry.
    apply andb_true_iff in Hentry as [Ht Hc]. apply negb_true_iff in Hc.
    split; [destruct (JS.trim line); [discriminate|congruence]|].
    split; [apply trim_idem|exact Hc].
  - rewrite bool_decide_eq_true_2 by eauto. simpl. split; [constructor|reflexivity].
  - rewrite bool_decide_eq_false_2 by (intros [? ?]; discriminate).
    simpl. split; [constructor|reflexivity].
Qed.
End BlacklistProperties.

(** ** Properties of the comparison of versions *)

Section SplitFacts.
Lemma split_not_nil sep s : JSText.split sep s <> [].
Proof.
  destruct s as [|c s]; simpl; [discriminate|].
  destruct (Ascii.eqb c sep); [discriminate|].
  destruct (JSText.split sep s); discriminate.
Qed.

Lemma split_app sep s t :
  JSText.split sep (s +:+ String sep t)
  = (JSText.split sep s ++ JSText.split sep t)%list.
Proof.
  induction s as [|c s IH]; simpl.
  - rewrite Ascii.eqb_refl. reflexivity.
  - destruct (Ascii.eqb c sep); rewrite IH; [reflexivity|].
    pose proof (split_not_nil sep s) as Hs.
    destruct (JSText.split sep s); [congruence|reflexivity].
Qed.
End SplitFacts.

Section CompareProperties.
Context {V : Type}.
Variable zero : V.
Variable ltb : V -> V -> bool.
Variable Number : string -> option V.

Hypothesis ltb_irreflexive : forall v, ltb v v = false.
Hypothesis ltb_asymmetric : forall a b, ltb a b = true -> ltb b a = false.

Abbreviation compare_from := (UpdateChecker.compare_from zero ltb).
Abbreviation part := (UpdateChecker.part zero).

Lemma compare_from_values n : forall i parts1 parts2,
  compare_from n i parts1 parts2 = 1%Z
  \/ compare_from n i parts1 parts2 = 0%Z
  \/ compare_from n i parts1 parts2 = (-1)%Z.
Proof.
  induction n as [|n IH]; intros i parts1 parts2; simpl; [auto|].
  destruct (ltb _ _); [auto|]. destruct (ltb _ _); [auto|]. apply IH.
Qed.

Lemma compare_from_swap n : forall i parts1 parts2,
  compare_from n i parts2 parts1 = (- compare_from n i parts1 parts2)%Z.
Proof.
  induction n as [|n IH]; intros i parts1 parts2; simpl; [reflexivity|].
  destruct (ltb (part parts2 i) (part parts1 i)) eqn:H21.
  - rewrite (ltb_asymmetric _ _ H21). reflexivity.
  - destruct (ltb (part parts1 i) (part parts2 i)) eqn:H12; [reflexivity|]. apply IH.
Qed.

Lemma compare_from_same n : forall i parts1 parts2,
  (forall j, (i <= j)%nat -> part parts1 j = part parts2 j) ->
  compare_from n i parts1 parts2 = 0%Z.
Proof.
  induction n as [|n IH]; intros i parts1 parts2 Hsame; simpl; [reflexivity|].
  rewrite (Hsame i) by lia. rewrite ltb_irreflexive. apply IH.
  intros j Hj. apply Hsame. lia.
Qed.

Lemma truthy_not_empty s : JS.truthy s = true <-> s <> "".
Proof. destruct s; simpl; split; congruence. Qed.

(** X15. Whatever [Number] makes of the parts, under an order that is
    irreflexive and asymmetric the comparison of two non-empty versions is
    1, 0 or -1 and changes sign when they are swapped; a version equals
    itself and itself followed by [.0]; an empty version makes it throw. *)
Theorem versions_are_ordered (v1 v2 : string) :
  (v1 = "" \/ v2 = "" ->
   exists e, UpdateChecker.compareVersions zero ltb Number v1 v2 = inl e)
  /\ (v1 <> "" -> v2 <> "" ->
      exists c,
        UpdateChecker.compareVersions zero ltb Number v1 v2 = inr c
        /\ (c = 1 \/ c = 0 \/ c = -1)%Z
        /\ UpdateChecker.compareVersions zero ltb Number v2 v1 = inr (- c)%Z)
  /\ (v1 <> "" -> UpdateChecker.compareVersions zero ltb Number v1 v1 = inr 0%Z)
  /\ (v1 <> "" -> Number "0" = Some zero ->
      UpdateChecker.compareVersions zero ltb Number (v1 +:+ ".0") v1 = inr 0%Z).
Proof.
  unfold UpdateChecker.compareVersions. split; [|split; [|split]].
  - intros [-> | ->]; simpl; [eauto|]. rewrite orb_true_r. eauto.
  - intros H1 H2. apply truthy_not_empty in H1, H2. rewrite H1, H2. simpl.
    eexists. split; [reflexivity|]. split; [apply compare_from_values|].
    rewrite Nat.max_comm. f_equal. apply compare_from_swap.
  - intros H1. apply truthy_not_empty in H1. rewrite H1. simpl. f_equal.
    apply compare_from_same. reflexivity.
  - intros H1 H0.
    assert (Ht : JS.truthy (v1 +:+ ".0") = true) by (destruct v1; reflexivity).
    apply truthy_not_empty in H1. rewrite Ht, H1. simpl. f_equal.
    apply compare_from_same. intros j _.
    change (v1 +:+ ".0") with (v1 +:+ String "." "0"). rewrite split_app.
    change (JSText.split "." "0") with ["0"]. rewrite map_app. simpl map at 2.
    rewrite H0. unfold UpdateChecker.part.
    set (parts := map Number (JSText.split "." v1)).
    destruct (Nat.lt_ge_cases j (length parts)) as [Hin|Hout].
    + rewrite lookup_app_l by exact Hin. reflexivity.
    + rewrite lookup_app_r by exact Hout.
      rewrite (proj2 (lookup_ge_None parts j)) by exact Hout.
      destruct (j - length parts)%nat as [|[|k]]; reflexivity.
Qed.
End CompareProperties.

Lemma versions_are_ordered_witness :
  UpdateChecker.compareVersions 0%Z Z.ltb number_of_digits "1.10.0" "1.10" = inr 0%Z.
Proof.
  destruct (versions_are_ordered 0%Z Z.ltb number_of_digits
              Z.ltb_irrefl
              (fun a b Hab => proj2 (Z.ltb_ge b a) (Z.lt_le_incl a b (proj1 (Z.ltb_lt a b) Hab)))
              "1.10" "1.9")
    as (_ & _ & _ & Hpad).
  apply Hpad; [discriminate|reflexivity].
Defined.

(** ** The reports and the blacklist on the scenarios *)

Lemma merged_summary_adds_up_witness :
  exists s,
    Merged.mergedCommand 4 "feature/x" "/repos" ["A"; "B"; "C"] backwards "master"
      two_at_a_time fleet = Batch.Returned s
    /\ MergedReport.validResults (Batch.results s)
       ≡ₚ List.filter (fun r => Merged.branchExists r && Merged.masterExists r)
            (Batch.results s).
Proof.
  assert (Hrun : exists s,
             Merged.mergedCommand 4 "feature/x" "/repos" ["A"; "B"; "C"] backwards "master"
               two_at_a_time fleet = Batch.Returned s)
    by (eexists; vm_compute; reflexivity).
  destruct Hrun as [s Hrun]. exists s. split; [exact Hrun|].
  apply (merged_summary_adds_up _ _ _ _ _ _ _ _ s Hrun).
Defined.

Lemma uptodate_lists_disjoint_witness :
  exists s,
    Uptodate.uptodateCommand 4 "feature/x" "/repos" ["A"; "B"; "C"] backwards "master"
      two_at_a_time fleet = Batch.Returned s
    /\ (UptodateReport.upToDate (UptodateReport.summary (Batch.results s))
        + UptodateReport.behind (UptodateReport.summary (Batch.results s))
        <= length (UptodateReport.validResults (Batch.results s)))%nat.
Proof.
  assert (Hrun : exists s,
             Uptodate.uptodateCommand 4 "feature/x" "/repos" ["A"; "B"; "C"] backwards
               "master" two_at_a_time fleet = Batch.Returned s)
    by (eexists; vm_compute; reflexivity).
  destruct Hrun as [s Hrun]. exists s. split; [exact Hrun|].
  apply (uptodate_lists_disjoint _ _ _ _ _ _ _ _ s Hrun).
Defined.

Lemma blacklist_round_trip_witness :
  exists fs,
    Config.saveBlacklist "/home/me" ["repo-a"; "repo-b"] ∅ = inr fs
    /\ Config.loadBlacklist "/home/me" fs = ["repo-a"; "repo-b"].
Proof.
  eexists. split.
  - unfold Config.saveBlacklist, Config.writeFileSync. rewrite lookup_empty. reflexivity.
  - eapply blacklist_round_trip.
    + unfold Config.saveBlacklist, Config.writeFileSync. rewrite lookup_empty. reflexivity.
    + repeat (apply Forall_cons; split; [repeat split; discriminate|]). constructor.
Defined.
